(** * SmartHomeValidation: the validation engine of [validation/validators.py]

    A shallow embedding of [verify_type_and_range] and [validate_device_data]
    and the properties of the specification that concern them.

    Python values are restricted to the JSON shapes a device record is made
    of, and strings to text of code points below 256, one [ascii] per
    character.  A dict is an
    association list in insertion order (iteration order decides the order
    of the reported errors); the sets of the module ([DEVICE_TYPES],
    [LIGHT_PARAMETERS], ...) are [gset string].  Exceptions are explicit:
    every function returns an [outcome].  The calls to [logger.error] write
    to the log only and are left out. *)

From Stdlib Require Import ZArith String Ascii List.
From Stdlib Require Import Decimal DecimalString DecimalPos DecimalZ.
From stdpp Require Import base decidable numbers list strings gmap.

#[local] Set Warnings "-register-all,-clear-no-such-hyp".
Local Open Scope Z_scope.

(** ** Values *)

(** A Python float: not-a-number, an infinity, or the finite value
    [m * 2^e]. *)
Inductive pyfloat :=
| FNan
| FInf (negative : bool)
| FFinite (m e : Z).

Inductive pyval :=
| VNone
| VBool (b : bool)
| VInt (z : Z)
| VFloat (f : pyfloat)
| VStr (s : string)
| VList (l : list pyval)
| VDict (d : list (string * pyval)).

Abbreviation dict := (list (string * pyval)).

(** [type(value)], and the classes passed as [cls]. *)
Inductive pytype := TNoneType | TBool | TInt | TFloat | TStr | TList | TDict.

Global Instance pytype_eq_dec : EqDecision pytype.
Proof. solve_decision. Defined.

Definition type_of (v : pyval) : pytype :=
  match v with
  | VNone => TNoneType
  | VBool _ => TBool
  | VInt _ => TInt
  | VFloat _ => TFloat
  | VStr _ => TStr
  | VList _ => TList
  | VDict _ => TDict
  end.

(** ** Exceptions *)

Inductive exn :=
  TypeError | ValueError | OverflowError | KeyError | AttributeError.

Inductive outcome (A : Type) :=
| Ret (a : A)
| Raise (e : exn).
Arguments Ret {A} a.
Arguments Raise {A} e.

Definition bind {A B} (m : outcome A) (k : A → outcome B) : outcome B :=
  match m with
  | Ret a => k a
  | Raise e => Raise e
  end.

Notation "'let*' x ':=' m 'in' k" := (bind m (λ x, k))
  (at level 10, x pattern, m at level 100, k at level 200,
   format "'[v' 'let*'  x  ':='  m  'in'  '/' k ']'").

(** ** Dicts *)

Definition keys (d : dict) : list string := d.*1.

(** [d[k]] *)
Fixpoint getitem (d : dict) (k : string) : outcome pyval :=
  match d with
  | [] => Raise KeyError
  | (k', v) :: d' => if bool_decide (k' = k) then Ret v else getitem d' k
  end.

(** A dict holds each key once. *)
Definition dict_wf (d : dict) : Prop := NoDup (keys d).

(** ** Error messages

    A message is an f-string: literal text and replacement fields.  The text
    of a set depends on the hash seed of the process and is kept as the set
    itself; a value is kept as the value. *)
Inductive piece :=
| Lit (s : string)
| Fmt (v : pyval)
| FmtSet (s : gset string)
| FmtType (t : pytype).

Abbreviation message := (list piece).

(** ** Builtins: [int], [re.match] *)

Definition code (c : ascii) : Z := Z.of_nat (nat_of_ascii c).

Definition between (lo hi : Z) (c : ascii) : bool :=
  (lo <=? code c) && (code c <=? hi).

(** Whitespace as the regular expressions see it, [\s] on a [str]: the
    characters of [str.isspace]. *)
Definition is_space (c : ascii) : bool :=
  between 9 13 c || between 28 32 c || between 133 133 c
  || between 160 160 c.

(** Whitespace that [int] strips from a string: tab to carriage return and
    the space, and the two spaces above 126, which [int] turns into a space
    first.  The separators 28 to 31 are not among them. *)
Definition is_int_space (c : ascii) : bool :=
  between 9 13 c || between 32 32 c || between 133 133 c
  || between 160 160 c.

Definition is_digit (c : ascii) : bool := between 48 57 c.

Definition is_hex (c : ascii) : bool :=
  is_digit c || between 65 70 c || between 97 102 c.

(** The list without the characters of the class [space] at its start, and
    without those at either end. *)
Fixpoint lstrip (space : ascii → bool) (l : list ascii) : list ascii :=
  match l with
  | c :: l' => if space c then lstrip space l' else l
  | [] => []
  end.

Definition strip (space : ascii → bool) (l : list ascii) : list ascii :=
  rev (lstrip space (rev (lstrip space l))).

(** Decimal digits, in groups separated by single underscores.  [acc] is the
    number read so far, [n] the count of digits, [after_digit] whether the
    previous character was a digit. *)
Fixpoint digits (acc : Z) (n : nat) (after_digit : bool) (l : list ascii)
  : option (Z * nat) :=
  match l with
  | [] => if after_digit then Some (acc, n) else None
  | c :: l' =>
      if is_digit c then digits (10 * acc + (code c - 48)) (S n) true l'
      else if bool_decide (c = "_"%char) && after_digit
           then digits acc n false l'
           else None
  end.

(** [sys.get_int_max_str_digits()], as the interpreter starts. *)
Definition int_max_str_digits : nat := 4300.

(** [int(s)] for a string, base 10. *)
Definition int_of_string (s : string) : outcome Z :=
  let l := strip is_int_space (list_ascii_of_string s) in
  let '(negative, l) :=
    match l with
    | c :: l' =>
        if bool_decide (c = "-"%char) then (true, l')
        else if bool_decide (c = "+"%char) then (false, l')
        else (false, l)
    | [] => (false, l)
    end in
  match digits 0 0 false l with
  | Some (z, n) =>
      if (int_max_str_digits <? n)%nat then Raise ValueError
      else Ret (if negative then - z else z)
  | None => Raise ValueError
  end.

(** [str(z)] for an int: its decimal text, with a minus sign when
    negative. *)
Definition str_int (z : Z) : string := NilZero.string_of_int (Z.to_int z).

(** The number of decimal digits of [z]. *)
Definition digit_count (z : Z) : nat := String.length (str_int (Z.abs z)).

(** Whether [str(z)] gives the text: it refuses an int of more digits than
    the limit with ValueError. *)
Definition has_text (z : Z) : bool :=
  negb (int_max_str_digits <? digit_count z)%nat.
Arguments has_text : simpl never.

(** [str(z)] *)
Definition str (z : Z) : outcome string :=
  if has_text z then Ret (str_int z) else Raise ValueError.

(** Whether [str(value)] gives a text: the text of a list or a dict holds
    the text of each of its values. *)
Fixpoint formattable (value : pyval) : bool :=
  match value with
  | VInt z => has_text z
  | VList l => forallb formattable l
  | VDict d => forallb (λ item, formattable item.2) d
  | _ => true
  end.

(** An f-string with a replacement field for an int, or for a value of any
    type: the fields are turned into text in turn, and the failure of one
    is the failure of the whole.  (A field for a string, a type or a set of
    strings has a text in any case.) *)
Definition fstring (m : message) : outcome message :=
  if forallb (λ p, match p with Fmt value => formattable value | _ => true end)
       m
  then Ret m else Raise ValueError.

(** [int(value)] *)
Definition int (value : pyval) : outcome Z :=
  match value with
  | VNone => Raise TypeError
  | VBool b => Ret (if b then 1 else 0)
  | VInt z => Ret z
  | VFloat FNan => Raise ValueError
  | VFloat (FInf _) => Raise OverflowError
  | VFloat (FFinite m e) =>
      Ret (if 0 <=? e then m * 2 ^ e else Z.quot m (2 ^ (- e)))
  | VStr s => int_of_string s
  | VList _ => Raise TypeError
  | VDict _ => Raise TypeError
  end.

(** [$] without [re.MULTILINE]: the end of the string, or just before a
    newline that ends it. *)
Definition at_end (l : list ascii) : bool :=
  match l with
  | [] => true
  | [c] => bool_decide (c = "010"%char)
  | _ => false
  end.

(** [[0-5][0-9]] *)
Definition sixty (a b : ascii) : bool := between 48 53 a && is_digit b.

(** [re.match(TIME_REGEX, s)], with
    [TIME_REGEX = '^([01][0-9]|2[0-3]):([0-5][0-9])(:[0-5][0-9])?$']. *)
Definition match_TIME_REGEX (s : string) : bool :=
  match list_ascii_of_string s with
  | h1 :: h2 :: c1 :: m1 :: m2 :: rest =>
      (between 48 49 h1 && is_digit h2
       || bool_decide (h1 = "2"%char) && between 48 51 h2)
      && bool_decide (c1 = ":"%char)
      && sixty m1 m2
      && (match rest with
          | c2 :: s1 :: s2 :: rest' =>
              bool_decide (c2 = ":"%char) && sixty s1 s2 && at_end rest'
          | _ => false
          end
          || at_end rest)
  | _ => false
  end.

Definition verify_time_string (s : string) : bool := match_TIME_REGEX s.

(** [re.match(COLOR_REGEX, s)], with
    [COLOR_REGEX = '^#([0-9A-Fa-f]{3}|[0-9A-Fa-f]{6})$']. *)
Definition match_COLOR_REGEX (s : string) : bool :=
  match list_ascii_of_string s with
  | c :: l =>
      bool_decide (c = "#"%char)
      && (match l with
          | a :: b :: c :: rest =>
              is_hex a && is_hex b && is_hex c
              && (at_end rest
                  || match rest with
                     | d :: e :: f :: rest' =>
                         is_hex d && is_hex e && is_hex f && at_end rest'
                     | _ => false
                     end)
          | _ => false
          end)
  | [] => false
  end.

(** ** Configuration, at the defaults of the module *)

Definition MIN_WATER_TEMP : Z := 49.
Definition MAX_WATER_TEMP : Z := 60.
Definition MIN_AC_TEMP : Z := 16.
Definition MAX_AC_TEMP : Z := 30.
Definition MIN_BRIGHTNESS : Z := 0.
Definition MAX_BRIGHTNESS : Z := 100.
Definition MIN_POSITION : Z := 0.
Definition MAX_POSITION : Z := 100.
Definition MIN_BATTERY : Z := 0.
Definition MAX_BATTERY : Z := 100.

Definition DEVICE_TYPES : gset string :=
  {[ "light"; "water_heater"; "air_conditioner"; "door_lock"; "curtain" ]}.
Definition DEVICE_PARAMETERS : gset string :=
  {[ "id"; "type"; "room"; "name"; "status"; "parameters" ]}.
Definition WATER_HEATER_PARAMETERS : gset string :=
  {[ "temperature"; "target_temperature"; "is_heating"; "timer_enabled";
     "scheduled_on"; "scheduled_off" ]}.
Definition LIGHT_PARAMETERS : gset string :=
  {[ "brightness"; "color"; "is_dimmable"; "dynamic_color" ]}.
Definition AC_PARAMETERS : gset string :=
  {[ "temperature"; "mode"; "fan_speed"; "swing" ]}.
Definition AC_MODES : gset string := {[ "cool"; "heat"; "fan" ]}.
Definition AC_FAN_SETTINGS : gset string :=
  {[ "off"; "low"; "medium"; "high" ]}.
Definition AC_SWING_MODES : gset string := {[ "off"; "on"; "auto" ]}.
Definition LOCK_PARAMETERS : gset string :=
  {[ "auto_lock_enabled"; "battery_level" ]}.
Definition CURTAIN_PARAMETERS : gset string := {[ "position" ]}.

(** ** The Primitive Checker *)

(** The argument [value_range]: [None], a tuple [(minimum, maximum)], a set
    of strings, or a string (['time'], ['color']). *)
Inductive range :=
| NoRange
| Range (minimum maximum : Z)
| OneOf (allowed : gset string)
| Format (kind : string).

Definition verify_type_and_range
    (value : pyval) (name : string) (cls : pytype) (value_range : range)
  : outcome (bool * option message) :=
  if bool_decide (cls = TInt) then
    match int value with
    | Raise ValueError =>
        let* error :=
          fstring [Fmt (VStr name); Lit " must be a numeric string, got ";
                   Fmt value; Lit " instead."] in
        Ret (false, Some error)
    | Raise e => Raise e
    | Ret value =>
        match value_range with
        | NoRange => Ret (true, None)
        | Range minimum maximum =>
            if (value >? maximum) || (value <? minimum) then
              (* outside the [try] *)
              let* error :=
                fstring [Fmt (VStr name); Lit " must be between ";
                         Fmt (VInt minimum); Lit " and ";
                         Fmt (VInt maximum); Lit ", got ";
                         Fmt (VInt value); Lit " instead."] in
              Ret (false, Some error)
            else Ret (true, None)
        (* [minimum, maximum = value_range] on a set or a string: two
           strings, which do not compare with an int, or an unpacking
           error *)
        | OneOf allowed =>
            if bool_decide (size allowed = 2%nat) then Raise TypeError
            else Raise ValueError
        | Format kind =>
            if bool_decide (String.length kind = 2%nat) then Raise TypeError
            else Raise ValueError
        end
    end
  else if bool_decide (type_of value ≠ cls) then
    let error := [Fmt (VStr name); Lit " must be a "; FmtType cls;
                  Lit ", got "; FmtType (type_of value); Lit " instead."] in
    Ret (false, Some error)
  else
    match cls, value, value_range with
    | TStr, VStr s, OneOf allowed =>
        if bool_decide (s ∉ allowed) then
          let error := [Lit "'"; Fmt value;
                        Lit "' is not a valid value for "; Fmt (VStr name);
                        Lit ". Must be one of "; FmtSet allowed; Lit "."] in
          Ret (false, Some error)
        else Ret (true, None)
    | TStr, VStr s, Format kind =>
        if bool_decide (kind = "time") then
          Ret (match_TIME_REGEX s,
               if match_TIME_REGEX s then None
               else Some [Lit "'"; Fmt value;
                          Lit "' is not a valid ISO format time string."])
        else if bool_decide (kind = "color") then
          Ret (match_COLOR_REGEX s,
               if match_COLOR_REGEX s then None
               else Some [Lit "'"; Fmt value;
                          Lit "' is not a valid hex color string."])
        else Ret (true, None)
    | _, _, _ => Ret (true, None)
    end.

(** ** The Device Validator *)

(** [errors.append(reason)].  [verify_type_and_range] gives a reason
    whenever it fails ([verify_type_and_range_reason] below). *)
Definition append (errors : list message) (reason : option message)
  : list message :=
  errors ++ option_list reason.

(** [success, reason = verify_type_and_range(...)] followed by
    [if not success: errors.append(reason)]. *)
Definition check (value : pyval) (name : string) (cls : pytype)
    (value_range : range) (errors : list message) : outcome (list message) :=
  let* (success, reason) :=
      verify_type_and_range value name cls value_range in
  Ret (if negb success then append errors reason else errors).

(** [for x in l: errors = body(x, errors)], leaving at the first
    exception. *)
Fixpoint for_each {A} (l : list A)
    (body : A → list message → outcome (list message))
    (errors : list message) : outcome (list message) :=
  match l with
  | [] => Ret errors
  | x :: l' => let* errors := body x errors in for_each l' body errors
  end.

(** [x in s] for a set of strings: [x] is hashed, then compared. *)
Definition contains (s : gset string) (x : pyval) : outcome bool :=
  match x with
  | VStr x => Ret (bool_decide (x ∈ s))
  | VList _ | VDict _ => Raise TypeError
  | _ => Ret false
  end.

(** [x == s] for a string [s]. *)
Definition eq_str (x : pyval) (s : string) : bool :=
  match x with
  | VStr x => bool_decide (x = s)
  | _ => false
  end.

Definition key_set (d : dict) : gset string := list_to_set (keys d).

Definition read_only_parameter (key : string) : message :=
  [Lit "Cannot update read-only parameter '"; Fmt (VStr key); Lit "'."].

(** The bodies of the five loops over [device_data['parameters'].items()]. *)

Definition door_lock_item (new_device : bool) (item : string * pyval)
    (errors : list message) : outcome (list message) :=
  let '(key, value) := item in
  if bool_decide (key = "auto_lock_enabled") then
    if new_device then check value "'auto_lock_enabled'" TBool NoRange errors
    else Ret (errors ++ [read_only_parameter key])
  else if bool_decide (key = "battery_level") then
    check value "'battery_level'" TInt (Range MIN_BATTERY MAX_BATTERY) errors
  else Ret errors.

Definition curtain_item (item : string * pyval) (errors : list message)
  : outcome (list message) :=
  let '(key, value) := item in
  if bool_decide (key = "position") then
    check value "'position'" TInt (Range MIN_POSITION MAX_POSITION) errors
  else Ret errors.

Definition air_conditioner_item (item : string * pyval)
    (errors : list message) : outcome (list message) :=
  let '(key, value) := item in
  if bool_decide (key = "temperature") then
    check value "'temperature'" TInt (Range MIN_AC_TEMP MAX_AC_TEMP) errors
  else if bool_decide (key = "mode") then
    check value "'mode'" TStr (OneOf AC_MODES) errors
  else if bool_decide (key = "fan") then
    check value "'fan'" TStr (OneOf AC_FAN_SETTINGS) errors
  else if bool_decide (key = "swing") then
    check value "'swing'" TStr (OneOf AC_SWING_MODES) errors
  else Ret errors.

Definition water_heater_item (item : string * pyval)
    (errors : list message) : outcome (list message) :=
  let '(key, value) := item in
  if bool_decide (key = "temperature") then
    check value "'temperature'" TInt NoRange errors
  else if bool_decide (key = "target_temperature") then
    check value "'target_temperature'" TInt
      (Range MIN_WATER_TEMP MAX_WATER_TEMP) errors
  else if bool_decide (key = "is_heating") then
    check value "'is_heating'" TBool NoRange errors
  else if bool_decide (key = "timer_enabled") then
    check value "'timer_enabled'" TBool NoRange errors
  else if bool_decide (key = "scheduled_on") then
    check value "'scheduled_on'" TStr (Format "time") errors
  else if bool_decide (key = "scheduled_off") then
    check value "'scheduled_off'" TStr (Format "time") errors
  else Ret errors.

Definition light_item (new_device : bool) (item : string * pyval)
    (errors : list message) : outcome (list message) :=
  let '(key, value) := item in
  if bool_decide (key = "brightness") then
    check value "'brightness'" TInt (Range MIN_BRIGHTNESS MAX_BRIGHTNESS)
      errors
  else if bool_decide (key = "color") then
    check value "'color'" TStr (Format "color") errors
  else if bool_decide (key = "is_dimmable") then
    if new_device then check value "'is_dimmable'" TBool NoRange errors
    else Ret (errors ++ [read_only_parameter key])
  else if bool_decide (key = "dynamic_color") then
    if new_device then check value "'dynamic_color'" TBool NoRange errors
    else Ret (errors ++ [read_only_parameter key])
  else Ret errors.

Definition disallowed (device : string) (left_over allowed : gset string)
  : message :=
  [Lit "Disallowed parameters for "; Lit device; Lit " "; FmtSet left_over;
   Lit ", allowed parameters: "; FmtSet allowed].

(** The branch [if field == 'status'] of the loop. *)
Definition status_field (device_data : dict) (device_type : pyval)
    (errors : list message) : outcome (list message) :=
  let* known := contains DEVICE_TYPES device_type in
  if known then
    let* status := getitem device_data "status" in
    if eq_str device_type "door_lock" then
      check status "'status'" TStr (OneOf {[ "unlocked"; "locked" ]}) errors
    else if eq_str device_type "curtain" then
      check status "'status'" TStr (OneOf {[ "open"; "closed" ]}) errors
    else
      check status "'status'" TStr (OneOf {[ "on"; "off" ]}) errors
  else Ret errors.

(** The branch [if field == 'parameters'] of the loop; each [continue] ends
    the branch, which is the last of the loop body. *)
Definition parameters_field (device_data : dict) (new_device : bool)
    (device_type : pyval) (errors : list message) : outcome (list message) :=
  let* known := contains DEVICE_TYPES device_type in
  if known then
    let* parameters := getitem device_data "parameters" in
    let* (success, reason) :=
      verify_type_and_range parameters "'parameters'" TDict NoRange in
    if negb success then Ret (append errors reason)
    else
      match parameters with
      | VDict parameters =>
          let left_over_parameters := key_set parameters in
          if eq_str device_type "door_lock" then
            let left_over_parameters :=
              left_over_parameters ∖ LOCK_PARAMETERS in
            if bool_decide (left_over_parameters ≠ ∅) then
              Ret (errors ++ [disallowed "door lock" left_over_parameters
                                LOCK_PARAMETERS])
            else for_each parameters (door_lock_item new_device) errors
          else if eq_str device_type "curtain" then
            let left_over_parameters :=
              left_over_parameters ∖ CURTAIN_PARAMETERS in
            if bool_decide (left_over_parameters ≠ ∅) then
              Ret (errors ++ [disallowed "curtain" left_over_parameters
                                CURTAIN_PARAMETERS])
            else for_each parameters curtain_item errors
          else if eq_str device_type "air_conditioner" then
            let left_over_parameters :=
              left_over_parameters ∖ AC_PARAMETERS in
            if bool_decide (left_over_parameters ≠ ∅) then
              Ret (errors ++ [disallowed "air conditioner"
                                left_over_parameters AC_PARAMETERS])
            else for_each parameters air_conditioner_item errors
          else if eq_str device_type "water_heater" then
            let left_over_parameters :=
              left_over_parameters ∖ WATER_HEATER_PARAMETERS in
            if bool_decide (left_over_parameters ≠ ∅) then
              Ret (errors ++ [disallowed "water heater" left_over_parameters
                                WATER_HEATER_PARAMETERS])
            else for_each parameters water_heater_item errors
          else if eq_str device_type "light" then
            let left_over_parameters :=
              left_over_parameters ∖ LIGHT_PARAMETERS in
            if bool_decide (left_over_parameters ≠ ∅) then
              Ret (errors ++ [disallowed "light" left_over_parameters
                                LIGHT_PARAMETERS])
            else for_each parameters (light_item new_device) errors
          else Ret errors
      (* [.keys()] of a value that is not a dict *)
      | _ => Raise AttributeError
      end
  else Ret errors.

(** The body of [for field in device_data]. *)
Definition field_body (device_data : dict) (new_device : bool)
    (device_type : pyval) (field : string) (errors : list message)
  : outcome (list message) :=
  let* errors :=
    (if bool_decide (field = "status")
     then status_field device_data device_type errors
     else Ret errors) in
  if bool_decide (field = "parameters")
  then parameters_field device_data new_device device_type errors
  else Ret errors.

(** From [if device_type not in DEVICE_TYPES] to the end. *)
Definition validate_fields (device_data : dict) (new_device : bool)
    (device_type : pyval) : outcome (bool * list message) :=
  let* known := contains DEVICE_TYPES device_type in
  if negb known then
    let* error :=
      fstring [Lit "Incorrect device type "; Fmt device_type;
               Lit ", must be one of "; FmtSet DEVICE_TYPES; Lit "."] in
    Ret (false, [error])
  else
    let* errors := for_each (keys device_data)
               (field_body device_data new_device device_type) [] in
    match errors with
    | _ :: _ => Ret (false, errors)
    | [] => Ret (true, [])
    end.

Definition incorrect_fields (device_data : dict) : message :=
  [Lit "Incorrect field(s) in new device: ";
   FmtSet (key_set device_data ∖ DEVICE_PARAMETERS);
   Lit ", missing field(s) in new device: ";
   FmtSet (DEVICE_PARAMETERS ∖ key_set device_data);
   Lit ", must be exactly these fields: "; FmtSet DEVICE_PARAMETERS].

Definition validate_device_data (device_data : dict) (new_device : bool)
    (device_type : string) : outcome (bool * list message) :=
  let errors : list message := [] in
  if new_device then
    if bool_decide (key_set device_data ≠ DEVICE_PARAMETERS) then
      Ret (false, [incorrect_fields device_data])
    else
      let* device_type := getitem device_data "type" in
      validate_fields device_data new_device device_type
  else
    let errors :=
      (if bool_decide ("id" ∈ keys device_data)
       then errors ++ [[Lit "Cannot update read-only parameter 'id'"]]
       else errors) in
    let errors :=
      (if bool_decide ("type" ∈ keys device_data)
       then errors ++ [[Lit "Cannot update read-only parameter 'type'"]]
       else errors) in
    match errors with
    | _ :: _ => Ret (false, errors)
    | [] => validate_fields device_data new_device (VStr device_type)
    end.

(** ** Vocabulary of the statements *)

(** The record passes the checks made before the loop over its fields, with
    [device_type] the type the loop dispatches on: in new-device mode the
    top-level keys are the canonical ones and the type is the record's own;
    in update mode neither ['id'] nor ['type'] is present and the type is the
    caller's. *)
Definition reaches_fields (device_data : dict) (new_device : bool)
    (given_type device_type : string) : Prop :=
  device_type ∈ DEVICE_TYPES
  ∧ (if new_device
     then key_set device_data = DEVICE_PARAMETERS
          ∧ getitem device_data "type" = Ret (VStr device_type)
     else ("id" ∉ keys device_data) ∧ ("type" ∉ keys device_data)
          ∧ given_type = device_type).

(** The allowed-parameter set of a device type, and the name the
    "Disallowed parameters" message gives it. *)
Definition allowed_parameters (device_type : string) : gset string :=
  if bool_decide (device_type = "door_lock") then LOCK_PARAMETERS
  else if bool_decide (device_type = "curtain") then CURTAIN_PARAMETERS
  else if bool_decide (device_type = "air_conditioner") then AC_PARAMETERS
  else if bool_decide (device_type = "water_heater")
       then WATER_HEATER_PARAMETERS
  else LIGHT_PARAMETERS.

Definition device_name (device_type : string) : string :=
  if bool_decide (device_type = "door_lock") then "door lock"
  else if bool_decide (device_type = "curtain") then "curtain"
  else if bool_decide (device_type = "air_conditioner") then "air conditioner"
  else if bool_decide (device_type = "water_heater") then "water heater"
  else "light".

(** The parameters that can be set at creation only. *)
Definition read_only (device_type key : string) : Prop :=
  device_type = "light" ∧ (key = "is_dimmable" ∨ key = "dynamic_color")
  ∨ device_type = "door_lock" ∧ key = "auto_lock_enabled".

(** [m] is an error of the Primitive Checker for ['status']. *)
Definition status_error (m : message) : Prop :=
  ∃ value allowed,
    verify_type_and_range value "'status'" TStr (OneOf allowed)
    = Ret (false, Some m).

(** The label of a parameter in the messages: its key between quotes. *)
Definition label_of (key : string) : string := "'" +:+ key +:+ "'".

(** [m] is an error that the Primitive Checker gives under the label of
    [key]: a type, numeric-string, range or enumeration error.  (The errors
    of the time and colour formats carry no label.) *)
Definition checker_error (key : string) (m : message) : Prop :=
  ∃ value cls value_range,
    (∀ kind, value_range ≠ Format kind)
    ∧ verify_type_and_range value (label_of key) cls value_range
      = Ret (false, Some m).

(** [m] has the label of [key] neither at its start nor after "is not a
    valid value for", the two places where the checker puts a label. *)
Definition unlabelled (key : string) (m : message) : Prop :=
  head m ≠ Some (Fmt (VStr (label_of key)))
  ∧ m !! 3%nat ≠ Some (Fmt (VStr (label_of key))).



(** A step that, when it returns, has only added errors satisfying [P]. *)
Definition adds (P : message → Prop)
    (step : list message → outcome (list message)) : Prop :=
  ∀ errors errors', step errors = Ret errors' →
    ∃ new, errors' = errors ++ new ∧ Forall P new.

(** ** Sample records *)

(** The record of [test_extra_parameter_in_air_conditioner]. *)
Definition extra_parameter_parameters : dict :=
  [("temperature", VInt 23); ("mode", VStr "cool");
   ("fan_speed", VStr "medium"); ("swing", VStr "auto");
   ("invalid_key", VStr "unexpected")].

Definition extra_parameter_record : dict :=
  [("status", VStr "on"); ("parameters", VDict extra_parameter_parameters)].

(** The record of [test_invalid_light_read_only_parameters], with a value
    for ['is_dimmable'] that is not a boolean. *)
Definition read_only_parameters : dict :=
  [("brightness", VInt 50); ("color", VStr "#FF00FF");
   ("is_dimmable", VStr "yes")].

Definition read_only_record : dict :=
  [("status", VStr "off"); ("parameters", VDict read_only_parameters)].

(** ** Vocabulary of the further statements *)

(** The ranges that the validator passes along with [int]: none, or a
    tuple. *)
Definition int_range (value_range : range) : Prop :=
  match value_range with
  | NoRange | Range _ _ => True
  | OneOf _ | Format _ => False
  end.

(** An int that [str] and the f-strings can print: one of no more digits
    than the limit. *)
Definition printable (z : Z) : Prop :=
  (digit_count z ≤ int_max_str_digits)%nat.

(** An int that they cannot print. *)
Definition huge_int : Z := 10 ^ 4300.

(** The character of a decimal digit, and the two-digit text of a number
    below 100. *)
Definition digit_char (d : nat) : ascii := ascii_of_nat (48 + d).

Definition two_digits (n : nat) : list ascii :=
  [digit_char (n / 10); digit_char (n mod 10)].

(** The text "HH:MM" or "HH:MM:SS", with a newline after it or not. *)
Definition time_text (h m : nat) (sec : option nat) (newline : bool)
  : string :=
  string_of_list_ascii
    (two_digits h ++ ":"%char :: two_digits m
     ++ match sec with
        | Some x => ":"%char :: two_digits x
        | None => []
        end
     ++ if newline then ["010"%char] else []).

(** The hexadecimal digits, in both cases, and the text of a colour: "#" and
    digits, with a newline after them or not. *)
Definition hex_digits : list ascii :=
  list_ascii_of_string "0123456789abcdefABCDEF".

Definition color_text (ds : list ascii) (newline : bool) : string :=
  string_of_list_ascii
    ("#"%char :: ds ++ if newline then ["010"%char] else []).

(** A computation whose exceptions, if any, all satisfy [P]. *)
Definition raises_in {A} (P : exn → Prop) (m : outcome A) : Prop :=
  ∀ e, m = Raise e → P e.

(** How the check of an integer parameter can end in the exception [e]:
    with the TypeError or the OverflowError of [int], or with ValueError
    when the number that [int] gives cannot be printed. *)
Definition refused (value : pyval) (e : exn) : Prop :=
  match int value with
  | Ret z => e = ValueError ∧ ¬ printable z
  | Raise e' => e = e' ∧ e ≠ ValueError
  end.

(** The values for which the check of an integer parameter gives a result,
    whatever the range: [int] takes them, giving a number that can be
    printed, or refuses them with ValueError. *)
Definition checkable (value : pyval) : Prop :=
  match int value with
  | Ret z => printable z
  | Raise e => e = ValueError
  end.

(** The values that can be looked up in a set: all but a list and a
    dict. *)
Definition hashable (v : pyval) : Prop :=
  match v with
  | VList _ | VDict _ => False
  | _ => True
  end.

(** The record with the value of [key] replaced, where it is present. *)
Definition set_value (key : string) (v : pyval) (d : dict) : dict :=
  (λ item, if bool_decide (item.1 = key) then (key, v) else item) <$> d.

(** The values of ['status'] for a device type. *)
Definition status_values (device_type : string) : gset string :=
  if bool_decide (device_type = "door_lock") then {[ "unlocked"; "locked" ]}
  else if bool_decide (device_type = "curtain") then {[ "open"; "closed" ]}
  else {[ "on"; "off" ]}.

(** The record of [test_valid_door_lock]. *)
Definition valid_door_lock_record : dict :=
  [("status", VStr "locked");
   ("parameters", VDict [("battery_level", VInt 50)])].

(** The loop body that the dispatch on the device type runs over the
    parameters. *)
Definition item_rule (device_type : string) (new_device : bool)
  : string * pyval → list message → outcome (list message) :=
  if bool_decide (device_type = "door_lock") then door_lock_item new_device
  else if bool_decide (device_type = "curtain") then curtain_item
  else if bool_decide (device_type = "air_conditioner")
       then air_conditioner_item
  else if bool_decide (device_type = "water_heater") then water_heater_item
  else light_item new_device.

(** The integer parameters that have a range, with their bounds. *)
Definition int_bounds (device_type key : string) : option (Z * Z) :=
  if bool_decide (device_type = "door_lock" ∧ key = "battery_level")
  then Some (MIN_BATTERY, MAX_BATTERY)
  else if bool_decide (device_type = "curtain" ∧ key = "position")
  then Some (MIN_POSITION, MAX_POSITION)
  else if bool_decide (device_type = "air_conditioner" ∧ key = "temperature")
  then Some (MIN_AC_TEMP, MAX_AC_TEMP)
  else if bool_decide (device_type = "water_heater"
                       ∧ key = "target_temperature")
  then Some (MIN_WATER_TEMP, MAX_WATER_TEMP)
  else if bool_decide (device_type = "light" ∧ key = "brightness")
  then Some (MIN_BRIGHTNESS, MAX_BRIGHTNESS)
  else None.

(** ** The release script, [release.py]

    The file [pyproject.toml] is its text, passed along; the script reads
    it with [read_text] and writes it with [write_text]. *)

(** [lit] at the start of [l]: what follows it. *)
Fixpoint literal (lit l : list ascii) : option (list ascii) :=
  match lit with
  | [] => Some l
  | c :: lit' =>
      match l with
      | c' :: l' => if bool_decide (c' = c) then literal lit' l' else None
      | [] => None
      end
  end.

(** The digits at the start of [l], and what follows them. *)
Fixpoint span_digits (l : list ascii) : list ascii * list ascii :=
  match l with
  | c :: l' =>
      if is_digit c
      then let '(ds, rest) := span_digits l' in (c :: ds, rest)
      else ([], l)
  | [] => ([], [])
  end.

(** [(\d+)]: one digit at least. *)
Definition group (l : list ascii) : option (list ascii * list ascii) :=
  match span_digits l with
  | ([], _) => None
  | (ds, rest) => Some (ds, rest)
  end.

(** The double quote. *)
Definition quote : ascii := "034"%char.

(** The pattern [version\s*=\s*"(\d+)\.(\d+)\.(\d+)"] at the start
    of [l]: its three groups and what follows the match.  At a given place
    the pattern matches in one way at most: the whitespace is followed by a
    character that is none, the digits by one that is none, so that the
    longest run is the only one that can go on. *)
Definition match_version (l : list ascii)
  : option (list ascii * list ascii * list ascii * list ascii) :=
  match literal (list_ascii_of_string "version") l with
  | None => None
  | Some l =>
  match literal [ "="%char ] (lstrip is_space l) with
  | None => None
  | Some l =>
  match literal [ quote ] (lstrip is_space l) with
  | None => None
  | Some l =>
  match group l with
  | None => None
  | Some (major, l) =>
  match literal [ "."%char ] l with
  | None => None
  | Some l =>
  match group l with
  | None => None
  | Some (minor, l) =>
  match literal [ "."%char ] l with
  | None => None
  | Some l =>
  match group l with
  | None => None
  | Some (patch, l) =>
  match literal [ quote ] l with
  | None => None
  | Some l => Some (major, minor, patch, l)
  end end end end end end end end end.

(** [re.search]: the first place of [l], from the left, where the pattern
    matches. *)
Fixpoint search (l : list ascii)
  : option (list ascii * list ascii * list ascii * list ascii) :=
  match match_version l with
  | Some found => Some found
  | None =>
      match l with
      | [] => None
      | _ :: l' => search l'
      end
  end.

(** [re.sub]: every match replaced by [repl], from the left, the search
    going on after each match.  [fuel] bounds the number of steps. *)
Fixpoint sub_fuel (fuel : nat) (repl l : list ascii) : list ascii :=
  match fuel with
  | O => l
  | S fuel =>
      match match_version l with
      | Some (_, rest) => repl ++ sub_fuel fuel repl rest
      | None =>
          match l with
          | [] => []
          | c :: l' => c :: sub_fuel fuel repl l'
          end
      end
  end.

Definition sub (repl l : list ascii) : list ascii :=
  sub_fuel (S (length l)) repl l.

Definition get_current_version (content : string) : outcome (Z * Z * Z) :=
  match search (list_ascii_of_string content) with
  | None => Raise ValueError
  | Some (major, minor, patch, _) =>
      let* major := int_of_string (string_of_list_ascii major) in
      let* minor := int_of_string (string_of_list_ascii minor) in
      let* patch := int_of_string (string_of_list_ascii patch) in
      Ret (major, minor, patch)
  end.

Definition bump_version (version : Z * Z * Z) (part : string)
  : outcome (Z * Z * Z) :=
  let '(major, minor, patch) := version in
  if bool_decide (part = "major") then Ret (major + 1, 0, 0)
  else if bool_decide (part = "minor") then Ret (major, minor + 1, 0)
  else if bool_decide (part = "patch") then Ret (major, minor, patch + 1)
  else Raise ValueError.

(** The text of a version whose parts have one. *)
Definition version_str (version : Z * Z * Z) : string :=
  let '(major, minor, patch) := version in
  str_int major +:+ "." +:+ str_int minor +:+ "." +:+ str_int patch.

(** [".".join(map(str, new_version))] *)
Definition join_version (version : Z * Z * Z) : outcome string :=
  let '(major, minor, patch) := version in
  let* major := str major in
  let* minor := str minor in
  let* patch := str patch in
  Ret (major +:+ "." +:+ minor +:+ "." +:+ patch).

(** The new text of the file, and the string returned.  Nothing is written
    when the text of the version cannot be made. *)
Definition update_pyproject (new_version : Z * Z * Z) (content : string)
  : outcome (string * string) :=
  let* new_version_str := join_version new_version in
  let content :=
    string_of_list_ascii
      (sub (list_ascii_of_string "version = " ++ quote
            :: list_ascii_of_string new_version_str ++ [quote])
         (list_ascii_of_string content)) in
  Ret (content, new_version_str).

(** The order of Python on tuples of three ints. *)
Definition version_lt (v w : Z * Z * Z) : Prop :=
  let '(a, b, c) := v in
  let '(a', b', c') := w in
  a < a' ∨ a = a' ∧ (b < b' ∨ b = b' ∧ c < c').

(** A version whose parts can all be printed. *)
Definition printable_version (v : Z * Z * Z) : Prop :=
  let '(a, b, c) := v in printable a ∧ printable b ∧ printable c.

(** A version as the pattern can read it back: no negative part, no part
    of more than 4300 digits. *)
Definition readable (v : Z * Z * Z) : Prop :=
  let '(a, b, c) := v in
  (0 ≤ a ∧ 0 ≤ b ∧ 0 ≤ c)
  ∧ (digit_count a ≤ 4300 ∧ digit_count b ≤ 4300 ∧ digit_count c ≤ 4300)%nat.

(** The text of a version line: "version", whitespace, "=", whitespace, and
    between double quotes three groups of digits with dots between them. *)
Definition version_line (ws1 ws2 major minor patch : list ascii)
  : list ascii :=
  list_ascii_of_string "version" ++ ws1 ++ "="%char :: ws2
  ++ quote :: major ++ "."%char :: minor ++ "."%char :: patch ++ [quote].

Definition spaces (ws : list ascii) : Prop :=
  Forall (λ c, is_space c = true) ws.

Definition digits_only (ds : list ascii) : Prop :=
  ds ≠ [] ∧ Forall (λ c, is_digit c = true) ds.

(** ** Tactics *)

(** A closed decidable statement, settled by evaluating its decision. *)
Ltac by_evaluation := apply (bool_decide_unpack _); vm_compute; exact I.

(** Comparisons of string constants, evaluated. *)
Ltac eval_string_tests :=
  repeat match goal with
    | |- context [bool_decide (@eq string ?a ?b)] =>
        let r := eval vm_compute in (bool_decide (a = b)) in
        match r with
        | true => change (bool_decide (a = b)) with true
        | false => change (bool_decide (a = b)) with false
        end
    end.

(** One step of [digits] on a decimal digit, with the accumulator put in the
    form [new]. *)
Ltac digits_step new :=
  cbn [list_ascii_of_string NilEmpty.string_of_uint digits Pos.of_uint_acc
       Pos.of_uint nb_digits];
  match goal with
  | |- context [is_digit ?c] =>
      change (is_digit c) with true;
      let v := eval vm_compute in (code c) in change (code c) with v
  end;
  cbv iota;
  match goal with
  | |- digits ?a _ _ _ = _ => replace a with new by lia
  end.

(** ** Runs of the test suite *)

Example test_valid_door_lock :
  validate_device_data
    [("status", VStr "locked");
     ("parameters", VDict [("battery_level", VInt 50)])]
    false "door_lock" = Ret (true, []).
Proof. vm_compute. reflexivity. Qed.

Example test_invalid_status_value :
  validate_device_data
    [("status", VStr "halfway");
     ("parameters", VDict [("position", VInt 50)])]
    false "curtain"
  = Ret (false, [[Lit "'"; Fmt (VStr "halfway");
                  Lit "' is not a valid value for "; Fmt (VStr "'status'");
                  Lit ". Must be one of "; FmtSet {[ "open"; "closed" ]};
                  Lit "."]]).
Proof. vm_compute. reflexivity. Qed.

Example test_invalid_light_too_bright :
  validate_device_data
    [("status", VStr "off");
     ("parameters", VDict [("brightness", VInt (MAX_BRIGHTNESS + 1));
                           ("color", VStr "#FF00FF")])]
    false "light"
  = Ret (false, [[Fmt (VStr "'brightness'"); Lit " must be between ";
                  Fmt (VInt MIN_BRIGHTNESS); Lit " and ";
                  Fmt (VInt MAX_BRIGHTNESS); Lit ", got ";
                  Fmt (VInt (MAX_BRIGHTNESS + 1)); Lit " instead."]]).
Proof. vm_compute. reflexivity. Qed.

Example test_valid_water_heater :
  validate_device_data
    [("status", VStr "on");
     ("parameters", VDict [("temperature", VInt 54);
                           ("target_temperature", VInt 54);
                           ("is_heating", VBool true);
                           ("timer_enabled", VBool false);
                           ("scheduled_on", VStr "08:00");
                           ("scheduled_off", VStr "10:00")])]
    false "water_heater" = Ret (true, []).
Proof. vm_compute. reflexivity. Qed.

Example test_validate_device_data_valid_light :
  validate_device_data
    [("id", VStr "light01"); ("type", VStr "light"); ("room", VStr "kitchen");
     ("name", VStr "Ceiling Light"); ("status", VStr "on");
     ("parameters", VDict [("brightness", VInt 50);
                           ("color", VStr "#FFAA00");
                           ("is_dimmable", VBool true);
                           ("dynamic_color", VBool false)])]
    true "" = Ret (true, []).
Proof. vm_compute. reflexivity. Qed.

Example test_validate_device_data_invalid_light_extra_param :
  validate_device_data
    [("id", VStr "light02"); ("type", VStr "light"); ("room", VStr "kitchen");
     ("name", VStr "Light"); ("status", VStr "on");
     ("parameters", VDict [("brightness", VInt 50);
                           ("color", VStr "#000");
                           ("random_param", VBool true)])]
    true ""
  = Ret (false, [disallowed "light" {[ "random_param" ]} LIGHT_PARAMETERS]).
Proof. vm_compute. reflexivity. Qed.

Example test_invalid_device_type :
  validate_device_data
    [("status", VStr "on"); ("parameters", VDict [])] false "smart_toaster"
  = Ret (false, [[Lit "Incorrect device type "; Fmt (VStr "smart_toaster");
                  Lit ", must be one of "; FmtSet DEVICE_TYPES; Lit "."]]).
Proof. vm_compute. reflexivity. Qed.

Example test_verify_type_and_range_time :
  verify_type_and_range (VStr "14:30") "scheduled_on" TStr (Format "time")
  = Ret (true, None)
  ∧ verify_type_and_range (VStr "25:00") "scheduled_on" TStr (Format "time")
    = Ret (false, Some [Lit "'"; Fmt (VStr "25:00");
                        Lit "' is not a valid ISO format time string."]).
Proof. vm_compute. split; reflexivity. Qed.

Example test_verify_type_and_range_color :
  verify_type_and_range (VStr "#FFF") "color" TStr (Format "color")
  = Ret (true, None)
  ∧ verify_type_and_range (VStr "#ffcc00") "color" TStr (Format "color")
    = Ret (true, None)
  ∧ verify_type_and_range (VStr "blue") "color" TStr (Format "color")
    = Ret (false, Some [Lit "'"; Fmt (VStr "blue");
                        Lit "' is not a valid hex color string."]).
Proof. vm_compute. repeat split; reflexivity. Qed.

Example test_verify_type_and_range_int_invalid_type :
  verify_type_and_range (VStr "abc") "temp" TInt (Range 49 60)
  = Ret (false, Some [Fmt (VStr "temp"); Lit " must be a numeric string, got ";
                      Fmt (VStr "abc"); Lit " instead."]).
Proof. vm_compute. reflexivity. Qed.

(** ** The loop and the monad *)

Lemma bind_Ret {A B} (m : outcome A) (k : A → outcome B) b :
  bind m k = Ret b → ∃ a, m = Ret a ∧ k a = Ret b.
Proof. destruct m as [a|e]; simpl; [eauto | discriminate]. Qed.

Lemma for_each_app {A} (l1 l2 : list A) body errors :
  for_each (l1 ++ l2) body errors
  = bind (for_each l1 body errors) (for_each l2 body).
Proof.
  revert errors. induction l1 as [|x l1 IH]; intros errors; simpl; [done|].
  destruct (body x errors) as [errors'|e]; simpl; [apply IH | done].
Qed.

Lemma for_each_ext {A} (l : list A) body1 body2 errors :
  (∀ x errors, x ∈ l → body1 x errors = body2 x errors) →
  for_each l body1 errors = for_each l body2 errors.
Proof.
  revert errors. induction l as [|x l IH]; intros errors Hext; simpl; [done|].
  rewrite Hext by left.
  destruct (body2 x errors); simpl; [|done].
  apply IH. intros y errors' Hy. apply Hext. by right.
Qed.


(** A loop whose body leaves the errors alone leaves them alone. *)
Lemma for_each_skip {A} (l : list A) body errors :
  (∀ x errors, x ∈ l → body x errors = Ret errors) →
  for_each l body errors = Ret errors.
Proof.
  induction l as [|x l IH]; intros Hskip; simpl; [done|].
  rewrite Hskip by left. simpl. apply IH.
  intros y errors' Hy. apply Hskip. by right.
Qed.

Lemma adds_Ret P : adds P Ret.
Proof.
  intros errors errors' [= <-]. exists []. by rewrite app_nil_r.
Qed.

Lemma adds_bind P step1 step2 :
  adds P step1 → adds P step2 →
  adds P (λ errors, bind (step1 errors) step2).
Proof.
  intros H1 H2 errors errors' (mid & Hmid & Hend)%bind_Ret.
  destruct (H1 _ _ Hmid) as (new1 & -> & HP1).
  destruct (H2 _ _ Hend) as (new2 & -> & HP2).
  exists (new1 ++ new2). rewrite app_assoc. split; [done|].
  by apply Forall_app.
Qed.

Lemma adds_for_each {A} P (l : list A) body :
  (∀ x, x ∈ l → adds P (body x)) → adds P (for_each l body).
Proof.
  induction l as [|x l IH]; intros Hbody; simpl.
  - apply adds_Ret.
  - apply (adds_bind P (body x) (for_each l body)).
    + apply Hbody. left.
    + apply IH. intros y Hy. apply Hbody. by right.
Qed.

(** ** The Primitive Checker *)

(** A failure always carries its reason, a success never does. *)
Lemma verify_type_and_range_reason value name cls value_range success reason :
  verify_type_and_range value name cls value_range = Ret (success, reason) →
  if success then reason = None else is_Some reason.
Proof.
  unfold verify_type_and_range, bind, fstring.
  repeat (case_bool_decide || case_match); intros ?; simplify_eq; eauto.
Qed.

Lemma adds_check P value name cls value_range :
  (∀ m, verify_type_and_range value name cls value_range
        = Ret (false, Some m) → P m) →
  adds P (check value name cls value_range).
Proof.
  intros HP errors errors'. unfold check.
  intros ([success reason] & Hv & [= <-])%bind_Ret.
  pose proof (verify_type_and_range_reason _ _ _ _ _ _ Hv) as Hr.
  destruct success; simpl in *.
  - exists []. by rewrite app_nil_r.
  - destruct Hr as [m ->]. exists [m]. split; [done|].
    constructor; [by apply HP | constructor].
Qed.

Lemma verify_int_inside value minimum maximum name :
  minimum ≤ value ≤ maximum →
  verify_type_and_range (VInt value) name TInt (Range minimum maximum)
  = Ret (true, None).
Proof.
  intros Hrange. unfold verify_type_and_range. simpl.
  replace (value >? maximum) with false by lia.
  by replace (value <? minimum) with false by lia.
Qed.

Lemma has_text_spec z : has_text z = true ↔ printable z.
Proof.
  unfold has_text, printable. rewrite negb_true_iff, Nat.ltb_ge. done.
Qed.

Lemma has_text_false z : has_text z = false ↔ ¬ printable z.
Proof.
  rewrite <- has_text_spec. by destruct (has_text z).
Qed.

(** The range message: made when the three numbers can be printed. *)
Lemma fstring_range (name : string) minimum maximum value :
  fstring [Fmt (VStr name); Lit " must be between "; Fmt (VInt minimum);
           Lit " and "; Fmt (VInt maximum); Lit ", got "; Fmt (VInt value);
           Lit " instead."]
  = if has_text minimum && has_text maximum && has_text value
    then Ret [Fmt (VStr name); Lit " must be between "; Fmt (VInt minimum);
              Lit " and "; Fmt (VInt maximum); Lit ", got ";
              Fmt (VInt value); Lit " instead."]
    else Raise ValueError.
Proof.
  unfold fstring. simpl. rewrite andb_true_r.
  by destruct (has_text minimum), (has_text maximum), (has_text value).
Qed.

(** Outside the range: the message, or the exception of making it. *)
Lemma verify_int_outside value name z minimum maximum :
  int value = Ret z → z < minimum ∨ maximum < z →
  verify_type_and_range value name TInt (Range minimum maximum)
  = if has_text minimum && has_text maximum && has_text z
    then Ret (false, Some [Fmt (VStr name); Lit " must be between ";
                           Fmt (VInt minimum); Lit " and ";
                           Fmt (VInt maximum); Lit ", got "; Fmt (VInt z);
                           Lit " instead."])
    else Raise ValueError.
Proof.
  intros Hint Hrange. unfold verify_type_and_range.
  rewrite bool_decide_true, Hint by done.
  replace ((z >? maximum) || (z <? minimum)) with true.
  - rewrite fstring_range.
    by destruct (has_text minimum && has_text maximum && has_text z).
  - symmetry. apply orb_true_iff. lia.
Qed.




(** C10: where an integer is expected a boolean is taken as one: [True] is
    checked as 1 and [False] as 0, with whatever range, so it passes whenever
    that number is in range and is never refused for its type.  So it is for
    each integer parameter of the rule tables. *)
Theorem bool_accepted_as_int (b : bool) (name : string) :
  let n := if b then 1 else 0 in
  int (VBool b) = Ret n
  ∧ (∀ value_range,
       verify_type_and_range (VBool b) name TInt value_range
       = verify_type_and_range (VInt n) name TInt value_range)
  ∧ verify_type_and_range (VBool b) name TInt NoRange = Ret (true, None)
  ∧ (∀ minimum maximum, minimum ≤ n ≤ maximum →
       verify_type_and_range (VBool b) name TInt (Range minimum maximum)
       = Ret (true, None))
  ∧ (∀ value_range m,
       verify_type_and_range (VBool b) name TInt value_range
       = Ret (false, Some m) →
       ∃ minimum maximum,
         value_range = Range minimum maximum
         ∧ ¬ minimum ≤ n ≤ maximum
         ∧ m = [Fmt (VStr name); Lit " must be between ";
                Fmt (VInt minimum); Lit " and "; Fmt (VInt maximum);
                Lit ", got "; Fmt (VInt n); Lit " instead."])
  ∧ (∀ new_device errors,
       door_lock_item new_device ("battery_level", VBool b) errors
       = Ret errors
       ∧ curtain_item ("position", VBool b) errors = Ret errors
       ∧ light_item new_device ("brightness", VBool b) errors = Ret errors
       ∧ water_heater_item ("temperature", VBool b) errors = Ret errors
       ∧ air_conditioner_item ("temperature", VBool b) errors
         = air_conditioner_item ("temperature", VInt n) errors
       ∧ water_heater_item ("target_temperature", VBool b) errors
         = water_heater_item ("target_temperature", VInt n) errors).
Proof.
  intros n. split; [done|]. split; [done|]. split; [done|].
  split; [|split].
  - intros minimum maximum Hrange.
    change (verify_type_and_range (VInt n) name TInt (Range minimum maximum)
            = Ret (true, None)).
    by apply verify_int_inside.
  - intros value_range m.
    change (verify_type_and_range (VInt n) name TInt value_range
            = Ret (false, Some m) → ∃ minimum maximum,
                value_range = Range minimum maximum
                ∧ ¬ minimum ≤ n ≤ maximum
                ∧ m = [Fmt (VStr name); Lit " must be between ";
                       Fmt (VInt minimum); Lit " and "; Fmt (VInt maximum);
                       Lit ", got "; Fmt (VInt n); Lit " instead."]).
    unfold verify_type_and_range. simpl.
    destruct value_range as [|minimum maximum|allowed|kind];
      try (repeat case_bool_decide; done).
    destruct ((n >? maximum) || (n <? minimum)) eqn:Hout; [|done].
    rewrite fstring_range.
    destruct (has_text minimum && has_text maximum && has_text n); [|done].
    intros [= <-]. exists minimum, maximum. split; [done|]. split; [lia|done].
  - intros new_device errors. by destruct b.
Qed.

Lemma bool_accepted_as_int_witness :
  verify_type_and_range (VBool true) "'brightness'" TInt (Range 0 100)
  = Ret (true, None).
Proof.
  apply (bool_accepted_as_int true "'brightness'"). simpl. lia.
Defined.

(** ** The Device Validator *)

Lemma validate_fields_flag device_data new_device device_type ok errors :
  validate_fields device_data new_device device_type = Ret (ok, errors) →
  ok = true ↔ errors = [].
Proof.
  unfold validate_fields.
  intros (known & _ & Hrest)%bind_Ret.
  destruct known; simpl in Hrest.
  - apply bind_Ret in Hrest as (errors' & _ & Hend).
    destruct errors'; by simplify_eq.
  - apply bind_Ret in Hrest as (error & _ & Hend). by simplify_eq.
Qed.

(** C3: whenever [validate_device_data] returns, the flag is true exactly
    when the list of errors is empty. *)
Theorem success_iff_no_errors device_data new_device device_type ok errors :
  validate_device_data device_data new_device device_type = Ret (ok, errors) →
  ok = true ↔ errors = [].
Proof.
  unfold validate_device_data. destruct new_device.
  - case_bool_decide.
    + intros [= <- <-]. done.
    + intros (ty & _ & Hrest)%bind_Ret. by eapply validate_fields_flag.
  - do 2 case_bool_decide; simpl;
      try (intros [= <- <-]; done).
    apply validate_fields_flag.
Qed.

Lemma success_iff_no_errors_witness :
  (true = true ↔ @nil message = [])
  ∧ (false = true
     ↔ [[Lit "Cannot update read-only parameter 'id'"]] = @nil message).
Proof.
  split.
  - apply (success_iff_no_errors
             [("status", VStr "locked");
              ("parameters", VDict [("battery_level", VInt 50)])]
             false "door_lock").
    vm_compute. reflexivity.
  - apply (success_iff_no_errors [("id", VStr "test")] false "light").
    vm_compute. reflexivity.
Defined.

(** C5: in new-device mode a record whose top-level keys are not exactly the
    canonical ones gets one error, which names the extra keys, the missing
    keys and the required keys; nothing else of the record is looked at. *)
Theorem new_device_wrong_fields device_data device_type :
  key_set device_data ≠ DEVICE_PARAMETERS →
  validate_device_data device_data true device_type
  = Ret (false,
         [[Lit "Incorrect field(s) in new device: ";
           FmtSet (key_set device_data ∖ DEVICE_PARAMETERS);
           Lit ", missing field(s) in new device: ";
           FmtSet (DEVICE_PARAMETERS ∖ key_set device_data);
           Lit ", must be exactly these fields: ";
           FmtSet DEVICE_PARAMETERS]]).
Proof.
  intros Hkeys. unfold validate_device_data.
  by rewrite bool_decide_true.
Qed.

Lemma new_device_wrong_fields_witness :
  validate_device_data
    [("id", VStr "device02"); ("type", VStr "light");
     ("room", VStr "kitchen"); ("name", VStr "Light");
     ("colour", VList []); ("parameters", VNone)] true ""
  = Ret (false,
         [[Lit "Incorrect field(s) in new device: "; FmtSet {[ "colour" ]};
           Lit ", missing field(s) in new device: "; FmtSet {[ "status" ]};
           Lit ", must be exactly these fields: ";
           FmtSet DEVICE_PARAMETERS]]).
Proof.
  etrans.
  - apply new_device_wrong_fields. by_evaluation.
  - vm_compute. reflexivity.
Defined.

(** C6: in update mode ['id'] and ['type'] each add their own "Cannot update
    read-only parameter" error, a record with both gets exactly the two, and
    the call returns at once with the errors so gathered and no other. *)
Theorem update_read_only_id_type device_data device_type :
  let error_id := [Lit "Cannot update read-only parameter 'id'"] in
  let error_type := [Lit "Cannot update read-only parameter 'type'"] in
  "id" ∈ keys device_data ∨ "type" ∈ keys device_data →
  validate_device_data device_data false device_type
  = Ret (false,
         (if bool_decide ("id" ∈ keys device_data) then [error_id] else [])
         ++ (if bool_decide ("type" ∈ keys device_data) then [error_type]
             else [])).
Proof.
  intros error_id error_type Hin. unfold validate_device_data.
  do 2 case_bool_decide; simpl; try done.
  by destruct Hin.
Qed.

Lemma update_read_only_id_type_witness :
  validate_device_data [("id", VStr "test"); ("type", VStr "light")]
    false "light"
  = Ret (false, [[Lit "Cannot update read-only parameter 'id'"];
                 [Lit "Cannot update read-only parameter 'type'"]])
  ∧ validate_device_data [("type", VInt 3); ("status", VNone)] false "oven"
    = Ret (false, [[Lit "Cannot update read-only parameter 'type'"]]).
Proof.
  split.
  - etrans.
    + apply update_read_only_id_type. left. by_evaluation.
    + vm_compute. reflexivity.
  - etrans.
    + apply update_read_only_id_type. right. by_evaluation.
    + vm_compute. reflexivity.
Defined.

Lemma contains_known device_type :
  device_type ∈ DEVICE_TYPES →
  contains DEVICE_TYPES (VStr device_type) = Ret true.
Proof. intros Hin. simpl. by rewrite bool_decide_true. Qed.

(** C9: in update mode, for a known device type, a record with none of the
    keys ['id'], ['type'], ['status'], ['parameters'] is valid: the values of
    its other keys are not looked at. *)
Theorem update_other_fields_pass device_data device_type :
  device_type ∈ DEVICE_TYPES →
  "id" ∉ keys device_data → "type" ∉ keys device_data →
  "status" ∉ keys device_data → "parameters" ∉ keys device_data →
  validate_device_data device_data false device_type = Ret (true, []).
Proof.
  intros Hknown Hid Htype Hstatus Hparameters.
  unfold validate_device_data.
  rewrite !bool_decide_false by done. simpl.
  unfold validate_fields. rewrite contains_known by done. simpl.
  rewrite for_each_skip; [done|].
  intros field errors Hfield. unfold field_body.
  rewrite !bool_decide_false; [done| |]; by intros ->.
Qed.

Lemma update_other_fields_pass_witness :
  validate_device_data
    [("room", VList [VNone]); ("name", VInt 7); ("colour", VDict [])]
    false "curtain" = Ret (true, []).
Proof. apply update_other_fields_pass; by_evaluation. Defined.

(** C1: the claim that no exception leaves [validate_device_data] fails on
    the code.  [int] raises [TypeError] for [None] and for a list, and
    [OverflowError] for an infinite float; [verify_type_and_range] handles
    [ValueError] alone, and the exception leaves the validator.  So does the
    [TypeError] of hashing a list given as the ['type'] of a new device. *)
Theorem int_coercion_exception_escapes :
  verify_type_and_range VNone "'position'" TInt
    (Range MIN_POSITION MAX_POSITION) = Raise TypeError
  ∧ validate_device_data [("parameters", VDict [("position", VNone)])]
      false "curtain" = Raise TypeError
  ∧ validate_device_data
      [("status", VStr "on");
       ("parameters", VDict [("brightness", VList [VInt 50])])]
      false "light" = Raise TypeError
  ∧ validate_device_data
      [("parameters", VDict [("battery_level", VFloat (FInf false))])]
      false "door_lock" = Raise OverflowError
  ∧ validate_device_data
      [("id", VStr "d1"); ("type", VList [VStr "light"]);
       ("room", VStr "hall"); ("name", VStr "lamp"); ("status", VStr "on");
       ("parameters", VDict [])]
      true "" = Raise TypeError.
Proof. vm_compute. repeat split; reflexivity. Qed.

(** ** The value of ['fan_speed'] *)










Example fan_speed_any_value :
  validate_device_data
    [("status", VStr "on");
     ("parameters", VDict [("temperature", VInt 23); ("mode", VStr "cool");
                           ("fan_speed", VList [VNone; VInt (-1)]);
                           ("swing", VStr "auto")])]
    false "air_conditioner" = Ret (true, []).
Proof. vm_compute. reflexivity. Qed.

(** ** Reaching the loop over the fields *)

Lemma getitem_split (d : dict) k v :
  getitem d k = Ret v →
  ∃ d1 d2, d = d1 ++ (k, v) :: d2 ∧ k ∉ keys d1.
Proof.
  induction d as [|[k' v'] d IH]; simpl; [done|].
  case_bool_decide as Hk.
  - intros [= ->]. subst k'. exists [], d. split; [done|]. apply not_elem_of_nil.
  - intros (d1 & d2 & -> & Hd1)%IH.
    exists ((k', v') :: d1), d2. split; [done|].
    simpl. intros [?|?]%elem_of_cons; [by subst | done].
Qed.

Lemma getitem_in_keys (d : dict) k :
  k ∈ keys d → ∃ v, getitem d k = Ret v.
Proof.
  induction d as [|[k' v'] d IH]; simpl.
  - by intros ?%elem_of_nil.
  - intros Hin. case_bool_decide; [eauto|].
    apply elem_of_cons in Hin as [?|?]; [by subst | by apply IH].
Qed.

Lemma reaches_fields_validate device_data new_device given_type device_type :
  reaches_fields device_data new_device given_type device_type →
  validate_device_data device_data new_device given_type
  = bind (for_each (keys device_data)
            (field_body device_data new_device (VStr device_type)) [])
      (λ errors, match errors with
                 | _ :: _ => Ret (false, errors)
                 | [] => Ret (true, [])
                 end).
Proof.
  intros [Hknown Hshape]. unfold validate_device_data.
  destruct new_device.
  - destruct Hshape as [Hkeys Htype].
    rewrite bool_decide_false by (by intros ?). rewrite Htype. simpl.
    unfold validate_fields. by rewrite contains_known.
  - destruct Hshape as (Hid & Htype & ->).
    rewrite !bool_decide_false by done. simpl.
    unfold validate_fields. by rewrite contains_known.
Qed.

(** ** The messages of the Primitive Checker *)

(** A message of the checker starts with the label, or with the quoted
    value. *)
Lemma verify_type_and_range_head value name cls value_range m :
  verify_type_and_range value name cls value_range = Ret (false, Some m) →
  head m = Some (Fmt (VStr name)) ∨ head m = Some (Lit "'").
Proof.
  unfold verify_type_and_range, bind, fstring.
  repeat (case_bool_decide || case_match); intros ?; simplify_eq; eauto.
Qed.

(** The check of ['status'] always returns, adding at most its own error. *)
Lemma check_status_total value allowed errors :
  ∃ new, check value "'status'" TStr (OneOf allowed) errors
         = Ret (errors ++ new)
         ∧ Forall status_error new.
Proof.
  unfold check.
  destruct (verify_type_and_range value "'status'" TStr (OneOf allowed))
    as [[success reason]|e] eqn:Hv.
  - pose proof (verify_type_and_range_reason _ _ _ _ _ _ Hv) as Hr.
    destruct success; simpl in *.
    + exists []. by rewrite app_nil_r.
    + destruct Hr as [m ->]. exists [m]. split; [done|].
      constructor; [by exists value, allowed | constructor].
  - exfalso. revert Hv. unfold verify_type_and_range. simpl.
    by repeat (case_bool_decide || case_match).
Qed.

Lemma status_field_total device_data device_type errors :
  device_type ∈ DEVICE_TYPES → "status" ∈ keys device_data →
  ∃ new, status_field device_data (VStr device_type) errors
         = Ret (errors ++ new)
         ∧ Forall status_error new.
Proof.
  intros Hknown [status Hstatus]%getitem_in_keys.
  unfold status_field. rewrite contains_known, Hstatus by done. simpl.
  repeat case_match; apply check_status_total.
Qed.

(** The fields before and after ['parameters']: the loop returns, and all it
    can add is the error of the check of ['status']. *)
Lemma for_each_other_fields device_data new_device device_type fields errors :
  device_type ∈ DEVICE_TYPES →
  fields ⊆ keys device_data → "parameters" ∉ fields →
  ∃ new, for_each fields
           (field_body device_data new_device (VStr device_type)) errors
         = Ret (errors ++ new)
         ∧ Forall status_error new.
Proof.
  intros Hknown. revert errors.
  induction fields as [|field fields IH]; intros errors Hsub Hparameters.
  - exists []. by rewrite app_nil_r.
  - apply not_elem_of_cons in Hparameters as [Hfield Hparameters].
    assert (∃ new, field_body device_data new_device (VStr device_type)
                     field errors = Ret (errors ++ new)
                   ∧ Forall status_error new) as (new1 & Hstep & Hnew1).
    { unfold field_body.
      rewrite (bool_decide_false (field = "parameters")) by done.
      case_bool_decide as Hstatus.
      - destruct (status_field_total device_data device_type errors)
          as (new & -> & Hnew); [done| |by exists new].
        subst field. apply Hsub. left.
      - exists []. by rewrite app_nil_r. }
    destruct (IH (errors ++ new1)) as (new2 & Hrest & Hnew2); [|done|].
    { intros x Hx. apply Hsub. by right. }
    exists (new1 ++ new2). simpl. rewrite Hstep. simpl.
    rewrite Hrest, app_assoc. split; [done|]. by apply Forall_app.
Qed.

(** ** Disallowed parameters *)

Lemma known_device_types device_type :
  device_type ∈ DEVICE_TYPES →
  device_type = "light" ∨ device_type = "water_heater"
  ∨ device_type = "air_conditioner" ∨ device_type = "door_lock"
  ∨ device_type = "curtain".
Proof.
  unfold DEVICE_TYPES. rewrite !elem_of_union, !elem_of_singleton. tauto.
Qed.

Lemma verify_dict parameters name :
  verify_type_and_range (VDict parameters) name TDict NoRange
  = Ret (true, None).
Proof. reflexivity. Qed.

Lemma parameters_field_disallowed device_data new_device device_type
    parameters errors :
  device_type ∈ DEVICE_TYPES →
  getitem device_data "parameters" = Ret (VDict parameters) →
  key_set parameters ∖ allowed_parameters device_type ≠ ∅ →
  parameters_field device_data new_device (VStr device_type) errors
  = Ret (errors
         ++ [disallowed (device_name device_type)
               (key_set parameters ∖ allowed_parameters device_type)
               (allowed_parameters device_type)]).
Proof.
  intros Hknown Hget. unfold parameters_field.
  rewrite contains_known, Hget by done.
  cbn [bind]. rewrite verify_dict. cbn [bind negb eq_str].
  unfold allowed_parameters, device_name.
  destruct (known_device_types _ Hknown) as [->|[->|[->|[->| ->]]]];
    eval_string_tests; cbv iota; intros Hleft;
    by rewrite bool_decide_true.
Qed.

Lemma status_error_not_disallowed m device left_over allowed :
  status_error m → m ≠ disallowed device left_over allowed.
Proof.
  intros (value & allowed' & Hv) ->.
  by destruct (verify_type_and_range_head _ _ _ _ _ Hv).
Qed.

(** C7, as the code has it: for a record that passes the checks made before
    the loop over its fields (the shape check of its mode and the check of
    the device type), if ['parameters'] is a mapping with a key outside the
    allowed set of the device type, the call returns (false, errors) where
    [errors] has the combined "Disallowed parameters" error, naming the
    disallowed keys and the allowed set, exactly once, and otherwise nothing
    but what the check of ['status'] reports: no entry of the mapping is
    checked. *)
Theorem disallowed_parameters_once device_data new_device given_type
    device_type parameters key :
  dict_wf device_data →
  reaches_fields device_data new_device given_type device_type →
  getitem device_data "parameters" = Ret (VDict parameters) →
  key ∈ keys parameters → key ∉ allowed_parameters device_type →
  ∃ before after,
    validate_device_data device_data new_device given_type
    = Ret (false,
           before
           ++ disallowed (device_name device_type)
                (key_set parameters ∖ allowed_parameters device_type)
                (allowed_parameters device_type)
              :: after)
    ∧ ∀ m, m ∈ before ++ after →
        status_error m
        ∧ ∀ device left_over allowed, m ≠ disallowed device left_over allowed.
Proof.
  intros Hwf Hreach Hget Hkey Hout.
  assert (key_set parameters ∖ allowed_parameters device_type ≠ ∅) as Hleft.
  { unfold key_set. set_solver. }
  rewrite (reaches_fields_validate _ _ _ _ Hreach).
  destruct Hreach as [Hknown _].
  destruct (getitem_split _ _ _ Hget) as (d1 & d2 & Hd & Hd1).
  assert (keys device_data = keys d1 ++ "parameters" :: keys d2) as Hkeys.
  { rewrite Hd. unfold keys. by rewrite fmap_app. }
  assert ("parameters" ∉ keys d2) as Hd2.
  { unfold dict_wf in Hwf. rewrite Hkeys in Hwf.
    apply NoDup_app in Hwf as (_ & _ & Hwf). by apply NoDup_cons in Hwf as []. }
  rewrite Hkeys, for_each_app.
  destruct (for_each_other_fields device_data new_device device_type
              (keys d1) []) as (before & -> & Hbefore); [done| |done|].
  { rewrite Hkeys. set_solver. }
  cbn [bind for_each app]. unfold field_body at 1.
  eval_string_tests. cbn [bind].
  rewrite (parameters_field_disallowed _ _ _ parameters) by done.
  cbn [bind].
  destruct (for_each_other_fields device_data new_device device_type
              (keys d2) (before ++ [disallowed (device_name device_type)
                (key_set parameters ∖ allowed_parameters device_type)
                (allowed_parameters device_type)]))
    as (after & -> & Hafter); [done| |done|].
  { rewrite Hkeys. set_solver. }
  exists before, after. cbn [bind]. rewrite <- app_assoc. simpl. split.
  - by destruct before.
  - intros m Hm.
    assert (status_error m) as Hstatus.
    { apply elem_of_app in Hm as [Hm|Hm];
        [by eapply (proj1 (Forall_forall _ _) Hbefore)
        |by eapply (proj1 (Forall_forall _ _) Hafter)]. }
    split; [done|]. intros. by apply status_error_not_disallowed.
Qed.

Lemma disallowed_parameters_once_witness :
  ∃ before after,
    validate_device_data extra_parameter_record false "air_conditioner"
    = Ret (false,
           before
           ++ disallowed (device_name "air_conditioner")
                (key_set extra_parameter_parameters
                 ∖ allowed_parameters "air_conditioner")
                (allowed_parameters "air_conditioner")
              :: after)
    ∧ ∀ m, m ∈ before ++ after →
        status_error m
        ∧ ∀ device left_over allowed, m ≠ disallowed device left_over allowed.
Proof.
  apply (disallowed_parameters_once extra_parameter_record false
           "air_conditioner" "air_conditioner" extra_parameter_parameters
           "invalid_key").
  - unfold dict_wf. by_evaluation.
  - split; [by_evaluation|]. split; [by_evaluation|].
    split; [by_evaluation | reflexivity].
  - reflexivity.
  - by_evaluation.
  - by_evaluation.
Defined.

(** C7 as stated fails: a record with a disallowed parameter key that is
    stopped by the shape check of its mode gets no "Disallowed parameters"
    error, in update mode (['id'] present) as in new-device mode (['status']
    missing). *)
Lemma disallowed_parameters_not_reached :
  "wattage" ∈ keys [("wattage", VInt 9)]
  ∧ ("wattage" ∉ LIGHT_PARAMETERS)
  ∧ validate_device_data
      [("id", VStr "lamp"); ("parameters", VDict [("wattage", VInt 9)])]
      false "light"
    = Ret (false, [[Lit "Cannot update read-only parameter 'id'"]])
  ∧ validate_device_data
      [("id", VStr "lamp"); ("type", VStr "light"); ("room", VStr "hall");
       ("name", VStr "Lamp"); ("parameters", VDict [("wattage", VInt 9)])]
      true ""
    = Ret (false,
           [[Lit "Incorrect field(s) in new device: "; FmtSet ∅;
             Lit ", missing field(s) in new device: "; FmtSet {[ "status" ]};
             Lit ", must be exactly these fields: ";
             FmtSet DEVICE_PARAMETERS]]).
Proof.
  split; [by_evaluation|]. split; [by_evaluation|].
  split; vm_compute; reflexivity.
Qed.

(** ** Read-only parameters *)

Lemma adds_append P m : P m → adds P (λ errors, Ret (errors ++ [m])).
Proof.
  intros HP errors errors' [= <-]. exists [m]. split; [done|].
  constructor; [done | constructor].
Qed.

Lemma verify_type_and_range_unlabelled key value name cls value_range m :
  name ≠ label_of key →
  verify_type_and_range value name cls value_range = Ret (false, Some m) →
  unlabelled key m.
Proof.
  intros Hname. unfold verify_type_and_range, bind, fstring, unlabelled.
  repeat (case_bool_decide || case_match); intros ?; simplify_eq;
    split; simpl; congruence.
Qed.

Lemma checker_error_labelled key m : checker_error key m → ¬ unlabelled key m.
Proof.
  intros (value & cls & value_range & Hrange & Hv) [Hhead Hfourth].
  revert Hv. unfold verify_type_and_range, bind, fstring.
  repeat (case_bool_decide || case_match); intros ?; simplify_eq;
    solve [ by apply Hhead | by apply Hfourth | by eapply Hrange ].
Qed.

(** What the loop adds in update mode, seen from a read-only parameter
    [key] of some device type [owner]: no error under the label of [key]. *)
Section ReadOnly.
Variables owner key : string.
Hypothesis Hro : read_only owner key.

Lemma adds_check_other value name cls value_range :
  name ≠ label_of key →
  adds (unlabelled key) (check value name cls value_range).
Proof.
  intros Hname. apply adds_check. intros m.
  by apply verify_type_and_range_unlabelled.
Qed.

Lemma adds_items item :
  adds (unlabelled key) (door_lock_item false item)
  ∧ adds (unlabelled key) (curtain_item item)
  ∧ adds (unlabelled key) (air_conditioner_item item)
  ∧ adds (unlabelled key) (water_heater_item item)
  ∧ adds (unlabelled key) (light_item false item).
Proof.
  destruct item as [key' value].
  unfold door_lock_item, curtain_item, air_conditioner_item,
    water_heater_item, light_item.
  repeat split; repeat case_bool_decide;
    first [ apply adds_Ret
          | apply adds_check_other
          | apply adds_append; split ];
    by destruct Hro as [[_ [->| ->]]|[_ ->]].
Qed.

Lemma adds_status_field device_data device_type :
  adds (unlabelled key) (status_field device_data device_type).
Proof.
  intros errors errors'. unfold status_field.
  destruct (contains DEVICE_TYPES device_type) as [[]|]; simpl;
    [|apply adds_Ret|done].
  destruct (getitem device_data "status") as [status|]; simpl; [|done].
  repeat case_match;
    apply (adds_check_other status "'status'");
    by destruct Hro as [[_ [->| ->]]|[_ ->]].
Qed.

Lemma adds_parameters_field device_data device_type :
  adds (unlabelled key) (parameters_field device_data false device_type).
Proof.
  intros errors errors'. unfold parameters_field.
  destruct (contains DEVICE_TYPES device_type) as [[]|]; simpl;
    [|apply adds_Ret|done].
  destruct (getitem device_data "parameters") as [parameters|]; simpl;
    [|done].
  destruct (verify_type_and_range parameters "'parameters'" TDict NoRange)
    as [[[] reason]|] eqn:Hv; simpl; [| |done].
  - destruct parameters; try done.
    repeat case_match;
      first [ apply adds_Ret
            | by apply (adds_append (unlabelled key))
            | apply adds_for_each; intros item _; apply (adds_items item) ].
  - pose proof (verify_type_and_range_reason _ _ _ _ _ _ Hv) as [m ->].
    apply (adds_append (unlabelled key) m).
    refine (verify_type_and_range_unlabelled _ _ _ _ _ _ _ Hv).
    by destruct Hro as [[_ [->| ->]]|[_ ->]].
Qed.

Lemma adds_field_body device_data device_type field :
  adds (unlabelled key) (field_body device_data false device_type field).
Proof.
  unfold field_body.
  apply (adds_bind _
           (λ errors, if bool_decide (field = "status")
                      then status_field device_data device_type errors
                      else Ret errors)
           (λ errors, if bool_decide (field = "parameters")
                      then parameters_field device_data false device_type
                             errors
                      else Ret errors)).
  - case_bool_decide; [apply adds_status_field | apply adds_Ret].
  - case_bool_decide; [apply adds_parameters_field | apply adds_Ret].
Qed.
End ReadOnly.

(** An error that the step of one item is sure to leave is among the errors
    of the loop. *)
Lemma for_each_reports {A} P (l : list A) body x m errors errors' :
  (∀ y, adds P (body y)) →
  x ∈ l → (∀ errors errors', body x errors = Ret errors' → m ∈ errors') →
  for_each l body errors = Ret errors' → m ∈ errors'.
Proof.
  intros Hadds (l1 & l2 & ->)%list_elem_of_split Hx.
  rewrite for_each_app.
  intros (errors1 & _ & Hrest)%bind_Ret. simpl in Hrest.
  apply bind_Ret in Hrest as (errors2 & Hstep%Hx & Hrest).
  destruct (adds_for_each P l2 body (λ y _, Hadds y) _ _ Hrest)
    as (new & -> & _).
  set_solver.
Qed.

(** With allowed keys only, the parameters of a light and of a door lock go
    through their loop. *)
Lemma parameters_field_allowed device_data new_device device_type parameters
    errors :
  device_type = "light" ∨ device_type = "door_lock" →
  getitem device_data "parameters" = Ret (VDict parameters) →
  (∀ key, key ∈ keys parameters → key ∈ allowed_parameters device_type) →
  parameters_field device_data new_device (VStr device_type) errors
  = for_each parameters
      (if bool_decide (device_type = "light") then light_item new_device
       else door_lock_item new_device) errors.
Proof.
  intros Htype Hget Hallowed.
  assert (key_set parameters ∖ allowed_parameters device_type = ∅) as Hleft.
  { unfold key_set. set_solver. }
  unfold parameters_field. rewrite contains_known, Hget;
    [|destruct Htype as [->| ->]; by_evaluation].
  cbn [bind]. rewrite verify_dict. cbn [bind negb eq_str].
  revert Hleft. unfold allowed_parameters.
  destruct Htype as [->| ->]; eval_string_tests; cbv iota;
    intros ->; by rewrite bool_decide_false by (by intros ?).
Qed.

Lemma getitem_Ret_in_keys (d : dict) k v : getitem d k = Ret v → k ∈ keys d.
Proof.
  intros (d1 & d2 & -> & _)%getitem_split.
  unfold keys. rewrite fmap_app. set_solver.
Qed.

(** C8, as the code has it: in update mode, for a record without ['id'] and
    ['type'] whose ['parameters'] is a mapping with allowed keys only,
    whenever the call returns, a read-only parameter that is present
    (['is_dimmable'] or ['dynamic_color'] of a light, ['auto_lock_enabled']
    of a door lock) makes the call fail with the error "Cannot update
    read-only parameter '<key>'.", whatever its value, and no error of the
    list is an error of the Primitive Checker under the label of that
    parameter. *)
Theorem read_only_parameter_on_update device_data device_type parameters key
    value ok errors :
  "id" ∉ keys device_data → "type" ∉ keys device_data →
  read_only device_type key →
  getitem device_data "parameters" = Ret (VDict parameters) →
  (∀ k, k ∈ keys parameters → k ∈ allowed_parameters device_type) →
  (key, value) ∈ parameters →
  validate_device_data device_data false device_type = Ret (ok, errors) →
  ok = false
  ∧ read_only_parameter key ∈ errors
  ∧ ∀ m, m ∈ errors → ¬ checker_error key m.
Proof.
  intros Hid Htype Hro Hget Hallowed Hitem.
  assert (device_type = "light" ∨ device_type = "door_lock") as Hkind.
  { destruct Hro as [[-> _]|[-> _]]; eauto. }
  assert (device_type ∈ DEVICE_TYPES) as Hknown.
  { destruct Hkind as [->| ->]; by_evaluation. }
  rewrite (reaches_fields_validate _ _ _ device_type) by done.
  intros (errors' & Hloop & Hend)%bind_Ret.
  assert (read_only_parameter key ∈ errors') as Hreported.
  { revert Hloop.
    apply (for_each_reports (unlabelled key) _ _ "parameters").
    - intros field. by eapply adds_field_body.
    - by eapply getitem_Ret_in_keys.
    - intros errors1 errors2. unfold field_body.
      eval_string_tests. cbn [bind].
      rewrite (parameters_field_allowed _ _ _ parameters) by done.
      apply (for_each_reports (unlabelled key) _ _ (key, value)); [|done|].
      + intros item.
        case_bool_decide; by eapply (adds_items device_type key Hro item).
      + intros errors3 errors4.
        destruct Hro as [[-> [->| ->]]|[-> ->]]; eval_string_tests;
          simpl; intros [= <-]; set_solver. }
  split; [|split].
  - destruct errors'; [by apply elem_of_nil in Hreported | by simplify_eq].
  - destruct errors'; by simplify_eq.
  - intros m Hm Herror. apply (checker_error_labelled _ _ Herror).
    assert (errors = errors') as -> by (destruct errors'; by simplify_eq).
    destruct (adds_for_each (unlabelled key) (keys device_data)
                (field_body device_data false (VStr device_type))
                (λ field _, adds_field_body device_type key Hro device_data
                              (VStr device_type) field) _ _ Hloop)
      as (new & -> & Hnew).
    by apply (proj1 (Forall_forall _ _) Hnew).
Qed.

Lemma read_only_parameter_on_update_witness :
  false = false
  ∧ read_only_parameter "is_dimmable" ∈ [read_only_parameter "is_dimmable"]
  ∧ ∀ m, m ∈ [read_only_parameter "is_dimmable"] →
      ¬ checker_error "is_dimmable" m.
Proof.
  apply (read_only_parameter_on_update read_only_record "light"
           read_only_parameters "is_dimmable" (VStr "yes")).
  - by_evaluation.
  - by_evaluation.
  - left. split; [reflexivity | left; reflexivity].
  - reflexivity.
  - apply Forall_forall. by_evaluation.
  - unfold read_only_parameters. repeat constructor.
  - vm_compute. reflexivity.
Defined.

(** C8 as stated fails: in update mode a read-only parameter gets no
    "Cannot update read-only parameter" error when the parameters are not
    looked at one by one, because one of them is disallowed or because the
    record holds ['id']. *)
Lemma read_only_parameter_not_reached :
  validate_device_data
    [("parameters", VDict [("is_dimmable", VBool true);
                           ("wattage", VInt 9)])]
    false "light"
  = Ret (false, [disallowed "light" {[ "wattage" ]} LIGHT_PARAMETERS])
  ∧ validate_device_data
      [("parameters", VDict [("auto_lock_enabled", VBool false);
                             ("pin", VStr "0000")])]
      false "door_lock"
    = Ret (false, [disallowed "door lock" {[ "pin" ]} LOCK_PARAMETERS])
  ∧ validate_device_data
      [("id", VStr "lamp");
       ("parameters", VDict [("dynamic_color", VBool true)])]
      false "light"
    = Ret (false, [[Lit "Cannot update read-only parameter 'id'"]]).
Proof. vm_compute. repeat split; reflexivity. Qed.

(** At creation the same parameter is checked, and a value that is not a
    boolean gets the type error which an update never gives. *)
Example creation_checks_is_dimmable :
  validate_device_data
    [("id", VStr "light01"); ("type", VStr "light"); ("room", VStr "kitchen");
     ("name", VStr "Ceiling Light"); ("status", VStr "on");
     ("parameters", VDict read_only_parameters)]
    true ""
  = Ret (false, [[Fmt (VStr "'is_dimmable'"); Lit " must be a ";
                  FmtType TBool; Lit ", got "; FmtType TStr;
                  Lit " instead."]])
  ∧ checker_error "is_dimmable"
      [Fmt (VStr "'is_dimmable'"); Lit " must be a "; FmtType TBool;
       Lit ", got "; FmtType TStr; Lit " instead."].
Proof.
  split; [vm_compute; reflexivity|].
  exists (VStr "yes"), TBool, NoRange. split; [done | reflexivity].
Qed.

(** ** Further properties of the Primitive Checker *)

(** X1: whenever [verify_type_and_range] returns, it returns (True, None)
    or (False, a message): the reason is there exactly when the check
    failed. *)
Theorem verify_type_and_range_result value name cls value_range success
    reason :
  verify_type_and_range value name cls value_range = Ret (success, reason) →
  success = true ∧ reason = None ∨ success = false ∧ ∃ m, reason = Some m.
Proof.
  intros Hv. apply verify_type_and_range_reason in Hv.
  destruct success; [by left | right]. by destruct Hv as [m ->]; eauto.
Qed.

Lemma verify_type_and_range_result_witness :
  false = true ∧ Some [Fmt (VStr "status"); Lit " must be a "; FmtType TStr;
                       Lit ", got "; FmtType TInt; Lit " instead."] = None
  ∨ false = false
    ∧ ∃ m, Some [Fmt (VStr "status"); Lit " must be a "; FmtType TStr;
                 Lit ", got "; FmtType TInt; Lit " instead."] = Some m.
Proof.
  apply (verify_type_and_range_result (VInt 123) "status" TStr
           (OneOf {[ "on"; "off" ]})).
  vm_compute. reflexivity.
Defined.

Lemma verify_other_returns value name cls value_range :
  cls ≠ TInt →
  ∃ result, verify_type_and_range value name cls value_range = Ret result.
Proof.
  intros Hcls. unfold verify_type_and_range.
  rewrite bool_decide_false by done.
  repeat (case_bool_decide || case_match); eauto.
Qed.

(** X2: with an expected type other than int the checker raises nothing:
    it always returns its pair, whatever the value and the range. *)
Theorem verify_type_and_range_no_exception value name cls value_range :
  cls ≠ TInt →
  ∃ success reason,
    verify_type_and_range value name cls value_range = Ret (success, reason).
Proof.
  intros Hcls.
  destruct (verify_other_returns value name cls value_range Hcls)
    as [[success reason] Hv].
  eauto.
Qed.

Lemma verify_type_and_range_no_exception_witness :
  ∃ success reason,
    verify_type_and_range (VList [VNone]) "'color'" TStr (Format "color")
    = Ret (success, reason).
Proof. by apply verify_type_and_range_no_exception. Defined.

Lemma int_of_string_raises s e : int_of_string s = Raise e → e = ValueError.
Proof.
  unfold int_of_string. repeat case_match; intros ?; by simplify_eq.
Qed.

(** What [int] refuses, and how.  A value refused with ValueError, a
    string or a not-a-number, has a text. *)
Lemma int_raises value e :
  int value = Raise e →
  e = ValueError ∧ formattable value = true
  ∨ e = TypeError
    ∧ (value = VNone ∨ (∃ l, value = VList l) ∨ ∃ d, value = VDict d)
  ∨ e = OverflowError ∧ ∃ negative, value = VFloat (FInf negative).
Proof.
  destruct value as [|b|z|[|negative|m x]|s|l|d]; simpl; try done;
    try (intros [= <-]; naive_solver).
  intros ->%int_of_string_raises. by left.
Qed.

Lemma verify_int_raises value name value_range e :
  int_range value_range →
  verify_type_and_range value name TInt value_range = Raise e →
  e = TypeError
  ∧ (value = VNone ∨ (∃ l, value = VList l) ∨ ∃ d, value = VDict d)
  ∨ e = OverflowError ∧ (∃ negative, value = VFloat (FInf negative))
  ∨ e = ValueError
    ∧ ∃ z minimum maximum,
        int value = Ret z ∧ value_range = Range minimum maximum
        ∧ (z < minimum ∨ maximum < z)
        ∧ ¬ (printable minimum ∧ printable maximum ∧ printable z).
Proof.
  intros Hrange. unfold verify_type_and_range.
  rewrite bool_decide_true by done.
  destruct (int value) as [z|e'] eqn:Hint.
  - destruct value_range as [|minimum maximum| |]; try done.
    destruct ((z >? maximum) || (z <? minimum)) eqn:Hout; [|done].
    rewrite fstring_range.
    destruct (has_text minimum && has_text maximum && has_text z) eqn:Htext;
      [done|].
    intros [= <-]. right. right. split; [done|].
    exists z, minimum, maximum. repeat split; try done.
    + apply orb_true_iff in Hout. lia.
    + rewrite <- !has_text_spec. intros (Hmin & Hmax & Hz).
      by rewrite Hmin, Hmax, Hz in Htext.
  - destruct (int_raises _ _ Hint) as [[-> Htext]|[[-> Hvalue]|[-> Hvalue]]].
    + unfold fstring. cbn [forallb formattable]. by rewrite Htext.
    + intros [= <-]. by left.
    + intros [= <-]. right. by left.
Qed.

(** X3: with expected type int, and no range or a tuple as the validator
    gives, the checker raises exactly in these cases: for the values that
    [int] refuses with something else than ValueError, which are None, a
    list or a dict (TypeError) and an infinite float (OverflowError); and
    for a number out of its range when it or a bound of the range has more
    than 4300 digits, so that the message cannot be made (ValueError).  Any
    other value gets a result. *)
Theorem verify_type_and_range_int_exceptions value name value_range e :
  int_range value_range →
  verify_type_and_range value name TInt value_range = Raise e ↔
  e = TypeError
  ∧ (value = VNone ∨ (∃ l, value = VList l) ∨ ∃ d, value = VDict d)
  ∨ e = OverflowError ∧ (∃ negative, value = VFloat (FInf negative))
  ∨ e = ValueError
    ∧ ∃ z minimum maximum,
        int value = Ret z ∧ value_range = Range minimum maximum
        ∧ (z < minimum ∨ maximum < z)
        ∧ ¬ (printable minimum ∧ printable maximum ∧ printable z).
Proof.
  intros Hrange. split; [by apply verify_int_raises|].
  intros [[-> [->|[[l ->]|[d ->]]]]|[[-> [negative ->]]|[-> Hvalue]]];
    try reflexivity.
  destruct Hvalue as (z & minimum & maximum & Hint & -> & Hout & Htext).
  rewrite (verify_int_outside value name z) by done.
  destruct (has_text minimum) eqn:Hmin; [|done].
  destruct (has_text maximum) eqn:Hmax; [|done].
  destruct (has_text z) eqn:Hz; [|done].
  destruct Htext. by rewrite <- !has_text_spec.
Qed.

Lemma verify_type_and_range_int_exceptions_witness :
  verify_type_and_range (VDict []) "'position'" TInt (Range 0 100)
  = Raise TypeError.
Proof.
  apply (verify_type_and_range_int_exceptions (VDict []) "'position'"
           (Range 0 100) TypeError).
  - exact I.
  - left. split; [reflexivity|]. right. right. by exists [].
Defined.

(** X4: an expected type other than int is never coerced to: the check
    passes only for a value of exactly that type, and a value of another
    type gets the type-mismatch message.  So an int is refused where a bool
    is expected. *)
Theorem verify_type_and_range_exact_type value name cls value_range :
  cls ≠ TInt →
  (verify_type_and_range value name cls value_range = Ret (true, None) →
   type_of value = cls)
  ∧ (type_of value ≠ cls →
     verify_type_and_range value name cls value_range
     = Ret (false, Some [Fmt (VStr name); Lit " must be a "; FmtType cls;
                         Lit ", got "; FmtType (type_of value);
                         Lit " instead."])).
Proof.
  intros Hcls. unfold verify_type_and_range.
  rewrite bool_decide_false by done. split.
  - case_bool_decide as Htype; [done|]. intros _.
    by destruct (decide (type_of value = cls)).
  - intros Htype. by rewrite bool_decide_true.
Qed.

Lemma verify_type_and_range_exact_type_witness :
  verify_type_and_range (VInt 1) "'is_heating'" TBool NoRange
  = Ret (false, Some [Fmt (VStr "'is_heating'"); Lit " must be a ";
                      FmtType TBool; Lit ", got "; FmtType TInt;
                      Lit " instead."]).
Proof.
  by apply (verify_type_and_range_exact_type (VInt 1) "'is_heating'" TBool
              NoRange).
Defined.

(** X5: with expected type str and a set of allowed values, the check passes
    exactly for a string that is a member of the set. *)
Theorem verify_type_and_range_enumeration value name allowed :
  verify_type_and_range value name TStr (OneOf allowed) = Ret (true, None)
  ↔ ∃ s, value = VStr s ∧ s ∈ allowed.
Proof.
  unfold verify_type_and_range. simpl. split.
  - destruct value; simpl; try done.
    case_bool_decide as Hin; [done|]. intros _. exists s. split; [done|].
    by destruct (decide (s ∈ allowed)).
  - intros (s & -> & Hin). simpl. by rewrite bool_decide_false by eauto.
Qed.

(** ** Numeric strings *)

Lemma strip_no_space l :
  Forall (λ c, is_int_space c = false) l → strip is_int_space l = l.
Proof.
  intros Hl. unfold strip.
  assert (∀ l', Forall (λ c, is_int_space c = false) l' →
            lstrip is_int_space l' = l')
    as Hlstrip.
  { intros l' Hl'. destruct Hl' as [|c l' Hc _]; simpl; [done|].
    by rewrite Hc. }
  rewrite (Hlstrip l) by done.
  rewrite Hlstrip by (by apply Forall_rev).
  apply rev_involutive.
Qed.

Lemma uint_no_space u :
  Forall (λ c, is_int_space c = false)
    (list_ascii_of_string (NilEmpty.string_of_uint u)).
Proof. induction u; simpl; by constructor. Qed.

Lemma uint_length u :
  length (list_ascii_of_string (NilEmpty.string_of_uint u)) = nb_digits u.
Proof. induction u; simpl; by f_equal. Qed.

Lemma length_list_ascii_of_string s :
  length (list_ascii_of_string s) = String.length s.
Proof. induction s; simpl; by f_equal. Qed.

Lemma digits_of_uint_acc u p n :
  digits (Z.pos p) n true (list_ascii_of_string (NilEmpty.string_of_uint u))
  = Some (Z.pos (Pos.of_uint_acc u p), (n + nb_digits u)%nat).
Proof.
  revert p n. induction u as [|u IH|u IH|u IH|u IH|u IH|u IH|u IH|u IH|u IH
                             |u IH]; intros p n.
  - simpl. do 2 f_equal. lia.
  - digits_step (Z.pos (10 * p)). rewrite IH. do 2 f_equal. lia.
  - digits_step (Z.pos (1 + 10 * p)). rewrite IH. do 2 f_equal. lia.
  - digits_step (Z.pos (2 + 10 * p)). rewrite IH. do 2 f_equal. lia.
  - digits_step (Z.pos (3 + 10 * p)). rewrite IH. do 2 f_equal. lia.
  - digits_step (Z.pos (4 + 10 * p)). rewrite IH. do 2 f_equal. lia.
  - digits_step (Z.pos (5 + 10 * p)). rewrite IH. do 2 f_equal. lia.
  - digits_step (Z.pos (6 + 10 * p)). rewrite IH. do 2 f_equal. lia.
  - digits_step (Z.pos (7 + 10 * p)). rewrite IH. do 2 f_equal. lia.
  - digits_step (Z.pos (8 + 10 * p)). rewrite IH. do 2 f_equal. lia.
  - digits_step (Z.pos (9 + 10 * p)). rewrite IH. do 2 f_equal. lia.
Qed.

Lemma digits_of_uint u n after_digit :
  u ≠ Nil ∨ after_digit = true →
  digits 0 n after_digit (list_ascii_of_string (NilEmpty.string_of_uint u))
  = Some (Z.of_N (Pos.of_uint u), (n + nb_digits u)%nat).
Proof.
  revert n after_digit.
  induction u as [|u IH|u|u|u|u|u|u|u|u|u]; intros n after_digit Hu.
  - destruct Hu as [?| ->]; [done|]. simpl. do 2 f_equal. lia.
  - digits_step 0. rewrite IH by eauto. do 2 f_equal. lia.
  - digits_step (Z.pos 1). rewrite digits_of_uint_acc. do 2 f_equal. lia.
  - digits_step (Z.pos 2). rewrite digits_of_uint_acc. do 2 f_equal. lia.
  - digits_step (Z.pos 3). rewrite digits_of_uint_acc. do 2 f_equal. lia.
  - digits_step (Z.pos 4). rewrite digits_of_uint_acc. do 2 f_equal. lia.
  - digits_step (Z.pos 5). rewrite digits_of_uint_acc. do 2 f_equal. lia.
  - digits_step (Z.pos 6). rewrite digits_of_uint_acc. do 2 f_equal. lia.
  - digits_step (Z.pos 7). rewrite digits_of_uint_acc. do 2 f_equal. lia.
  - digits_step (Z.pos 8). rewrite digits_of_uint_acc. do 2 f_equal. lia.
  - digits_step (Z.pos 9). rewrite digits_of_uint_acc. do 2 f_equal. lia.
Qed.

Lemma int_of_string_uint u (negative : bool) :
  u ≠ Nil → (nb_digits u ≤ int_max_str_digits)%nat →
  int_of_string (if negative then String "-" (NilEmpty.string_of_uint u)
                 else NilEmpty.string_of_uint u)
  = Ret (if negative then - Z.of_N (Pos.of_uint u)
         else Z.of_N (Pos.of_uint u)).
Proof.
  intros Hu Hcount. unfold int_of_string.
  pose proof (digits_of_uint u 0 false (or_introl Hu)) as Hdigits.
  assert ((int_max_str_digits <? 0 + nb_digits u)%nat = false) as Hlimit.
  { apply Nat.ltb_ge. lia. }
  destruct negative.
  - rewrite strip_no_space
      by (constructor; [done | apply uint_no_space]).
    cbn [list_ascii_of_string]. rewrite bool_decide_true by done.
    by rewrite Hdigits, Hlimit.
  - rewrite strip_no_space by apply uint_no_space.
    destruct u; try done;
      cbn [list_ascii_of_string NilEmpty.string_of_uint] in *;
      rewrite !bool_decide_false by done;
      by rewrite Hdigits, Hlimit.
Qed.

Lemma int_of_str_int z :
  (digit_count z ≤ int_max_str_digits)%nat →
  int_of_string (str_int z) = Ret z.
Proof.
  unfold digit_count, str_int. destruct z as [|p|p]; [done| |].
  - change (Z.abs (Z.pos p)) with (Z.pos p).
    cbn [Z.to_int NilZero.string_of_int].
    pose proof (Unsigned.to_uint_nonnil p) as Hp.
    assert (NilZero.string_of_uint (Pos.to_uint p)
            = NilEmpty.string_of_uint (Pos.to_uint p)) as ->.
    { by destruct (Pos.to_uint p). }
    rewrite <- length_list_ascii_of_string, uint_length. intros Hcount.
    rewrite (int_of_string_uint _ false) by done.
    by rewrite Unsigned.of_to.
  - change (Z.abs (Z.neg p)) with (Z.pos p).
    cbn [Z.to_int NilZero.string_of_int].
    pose proof (Unsigned.to_uint_nonnil p) as Hp.
    assert (NilZero.string_of_uint (Pos.to_uint p)
            = NilEmpty.string_of_uint (Pos.to_uint p)) as ->.
    { by destruct (Pos.to_uint p). }
    rewrite <- length_list_ascii_of_string, uint_length. intros Hcount.
    rewrite (int_of_string_uint _ true) by done.
    by rewrite Unsigned.of_to.
Qed.

(** X6: a string that is the decimal text of an integer is taken as that
    integer: [int(str(z))] is [z], so with expected type int the string
    passes or fails the range exactly as the integer does.  The text may
    have at most 4300 digits, the limit of [int] on strings. *)
Theorem numeric_string_as_int z name value_range :
  (digit_count z ≤ 4300)%nat →
  int (VStr (str_int z)) = Ret z
  ∧ verify_type_and_range (VStr (str_int z)) name TInt value_range
    = verify_type_and_range (VInt z) name TInt value_range.
Proof.
  intros Hcount. apply int_of_str_int in Hcount. split; [done|].
  unfold verify_type_and_range. simpl. by rewrite Hcount.
Qed.

Lemma numeric_string_as_int_witness :
  int (VStr (str_int (-17))) = Ret (-17)
  ∧ verify_type_and_range (VStr (str_int (-17))) "'brightness'" TInt
      (Range 0 100)
    = verify_type_and_range (VInt (-17)) "'brightness'" TInt (Range 0 100).
Proof.
  apply (numeric_string_as_int (-17) "'brightness'" (Range 0 100)).
  vm_compute. by_evaluation.
Defined.

Example str_int_text : str_int (-17) = "-17" ∧ str_int 0 = "0".
Proof. split; reflexivity. Qed.

(** ** The time and colour formats *)

Lemma between_digit lo hi c :
  48 ≤ lo → between lo hi c = true →
  ∃ d, c = digit_char d ∧ lo ≤ 48 + Z.of_nat d ≤ hi.
Proof.
  unfold between, code, digit_char. intros Hlo Hc.
  apply andb_true_iff in Hc as [Hc1%Z.leb_le Hc2%Z.leb_le].
  exists (nat_of_ascii c - 48)%nat. split; [|lia].
  replace (48 + (nat_of_ascii c - 48))%nat with (nat_of_ascii c) by lia.
  by rewrite ascii_nat_embedding.
Qed.

Lemma two_digits_decode d1 d2 :
  (d2 < 10)%nat →
  two_digits (10 * d1 + d2) = [digit_char d1; digit_char d2].
Proof.
  intros Hd2. unfold two_digits.
  rewrite <- (Nat.div_unique (10 * d1 + d2) 10 d1 d2) by lia.
  by rewrite <- (Nat.mod_unique (10 * d1 + d2) 10 d1 d2) by lia.
Qed.

Lemma sixty_decode a b :
  sixty a b = true → ∃ n, (n < 60)%nat ∧ [a; b] = two_digits n.
Proof.
  unfold sixty, is_digit. intros [Ha Hb]%andb_true_iff.
  apply between_digit in Ha as (d1 & -> & Hd1); [|done].
  apply between_digit in Hb as (d2 & -> & Hd2); [|done].
  exists (10 * d1 + d2)%nat. split; [lia|].
  by rewrite two_digits_decode by lia.
Qed.

Lemma at_end_decode l :
  at_end l = true →
  ∃ newline : bool, l = if newline then ["010"%char] else [].
Proof.
  destruct l as [|c [|? ?]]; simpl; try done.
  - by exists false.
  - intros ->%bool_decide_eq_true. by exists true.
Qed.

Lemma forallb_below (P : nat → bool) k n :
  forallb P (seq 0 k) = true → (n < k)%nat → P n = true.
Proof.
  intros Hall Hn. apply (proj1 (forallb_forall P (seq 0 k)) Hall).
  apply in_seq. lia.
Qed.

Lemma sixty_encode n :
  (n < 60)%nat → sixty (digit_char (n / 10)) (digit_char (n mod 10)) = true.
Proof.
  intros Hn.
  apply (forallb_below
           (λ k, sixty (digit_char (k / 10)) (digit_char (k mod 10))) 60 n);
    [vm_compute; reflexivity | done].
Qed.

Lemma hours_encode h :
  (h < 24)%nat →
  between 48 49 (digit_char (h / 10)) && is_digit (digit_char (h mod 10))
  || bool_decide (digit_char (h / 10) = "2"%char)
     && between 48 51 (digit_char (h mod 10)) = true.
Proof.
  intros Hh.
  apply (forallb_below
           (λ k, between 48 49 (digit_char (k / 10))
                 && is_digit (digit_char (k mod 10))
                 || bool_decide (digit_char (k / 10) = "2"%char)
                    && between 48 51 (digit_char (k mod 10))) 24 h);
    [vm_compute; reflexivity | done].
Qed.

(** X7: [verify_time_string] accepts exactly the texts "HH:MM" and
    "HH:MM:SS" with two digits each, HH from 00 to 23, MM and SS from 00 to
    59, and the same texts followed by one newline (which [$] lets
    through). *)
Theorem verify_time_string_accepts s :
  verify_time_string s = true
  ↔ ∃ h m sec newline,
      (h < 24)%nat ∧ (m < 60)%nat ∧ (∀ x, sec = Some x → (x < 60)%nat)
      ∧ s = time_text h m sec newline.
Proof.
  unfold verify_time_string, match_TIME_REGEX, time_text. split.
  - intros Hmatch. rewrite <- (string_of_list_ascii_of_string s).
    revert Hmatch.
    destruct (list_ascii_of_string s) as [|h1 [|h2 [|c1 [|m1 [|m2 rest]]]]];
      try done.
    intros [[[Hh ->%bool_decide_eq_true]%andb_true_iff
               Hm]%andb_true_iff Hrest]%andb_true_iff.
    assert (∃ h, (h < 24)%nat ∧ [h1; h2] = two_digits h) as (h & Hh24 & Hh').
    { apply orb_true_iff in Hh as [[Ha Hb]%andb_true_iff
                                  |[Ha%bool_decide_eq_true Hb]%andb_true_iff].
      - apply between_digit in Ha as (d1 & -> & Hd1); [|done].
        apply between_digit in Hb as (d2 & -> & Hd2); [|done].
        exists (10 * d1 + d2)%nat. split; [lia|].
        by rewrite two_digits_decode by lia.
      - apply between_digit in Hb as (d2 & -> & Hd2); [|done].
        exists (10 * 2 + d2)%nat. split; [lia|].
        rewrite two_digits_decode by lia. by subst h1. }
    apply sixty_decode in Hm as (m & Hm60 & Hm').
    injection Hh' as -> ->. injection Hm' as -> ->.
    apply orb_true_iff in Hrest as [Hsec|Hend].
    + destruct rest as [|c2 [|s1 [|s2 rest']]]; try done.
      apply andb_true_iff in Hsec
        as [[->%bool_decide_eq_true Hsec]%andb_true_iff Hend].
      apply sixty_decode in Hsec as (x & Hx60 & Hx').
      injection Hx' as -> ->.
      apply at_end_decode in Hend as [newline ->].
      exists h, m, (Some x), newline. repeat split; [done|done|].
      by intros ? [= <-].
    + apply at_end_decode in Hend as [newline ->].
      exists h, m, None, newline. by repeat split.
  - intros (h & m & sec & newline & Hh & Hm & Hsec & ->).
    rewrite list_ascii_of_string_of_list_ascii.
    unfold two_digits. cbn [app].
    rewrite hours_encode, sixty_encode by done.
    rewrite bool_decide_true by done. cbn [andb].
    destruct sec as [x|]; cbn [app].
    + rewrite bool_decide_true by done.
      rewrite sixty_encode by (by apply Hsec). by destruct newline.
    + by destruct newline.
Qed.

Example verify_time_string_edges :
  verify_time_string "23:59" = true
  ∧ verify_time_string "14:30:00" = true
  ∧ verify_time_string "24:00" = false
  ∧ verify_time_string "9:30" = false
  ∧ verify_time_string (time_text 23 59 None true) = true.
Proof. vm_compute. repeat split; reflexivity. Qed.

Lemma is_hex_spec c : is_hex c = bool_decide (c ∈ hex_digits).
Proof. destruct c as [[] [] [] [] [] [] [] []]; vm_compute; reflexivity. Qed.

(** X8: a colour is accepted exactly when it is "#" followed by three or by
    six hexadecimal digits, of either case, with one newline after them or
    not. *)
Theorem color_format_accepts s :
  match_COLOR_REGEX s = true
  ↔ ∃ ds newline,
      (length ds = 3%nat ∨ length ds = 6%nat)
      ∧ Forall (λ c, c ∈ hex_digits) ds
      ∧ s = color_text ds newline.
Proof.
  unfold match_COLOR_REGEX, color_text. split.
  - intros Hmatch. rewrite <- (string_of_list_ascii_of_string s).
    revert Hmatch.
    destruct (list_ascii_of_string s) as [|c0 [|a [|b [|c rest]]]];
      try done; try (by intros [_ ?]%andb_true_iff).
    rewrite !is_hex_spec.
    intros [->%bool_decide_eq_true
              [[[Ha%bool_decide_eq_true Hb%bool_decide_eq_true]%andb_true_iff
                  Hc%bool_decide_eq_true]%andb_true_iff
                 Hrest]%andb_true_iff]%andb_true_iff.
    apply orb_true_iff in Hrest as [Hend|Hsix].
    + apply at_end_decode in Hend as [newline ->].
      exists [a; b; c], newline. split; [by left|]. split; [|done].
      repeat (apply Forall_cons_2; [done|]). apply Forall_nil_2.
    + destruct rest as [|d [|e [|f rest']]]; try done.
      rewrite !is_hex_spec in Hsix.
      apply andb_true_iff in Hsix
        as [[[Hd%bool_decide_eq_true He%bool_decide_eq_true]%andb_true_iff
               Hf%bool_decide_eq_true]%andb_true_iff Hend].
      apply at_end_decode in Hend as [newline ->].
      exists [a; b; c; d; e; f], newline. split; [by right|]. split; [|done].
      repeat (apply Forall_cons_2; [done|]). apply Forall_nil_2.
  - intros (ds & newline & Hlength & Hhex & ->).
    rewrite list_ascii_of_string_of_list_ascii.
    rewrite bool_decide_true by done. cbn [andb].
    destruct Hlength as [Hlength|Hlength];
      repeat (destruct ds as [|? ds]; try done);
      repeat match goal with
        | H : Forall _ (_ :: _) |- _ => apply Forall_cons in H as [? H]
        end;
      cbn [app]; rewrite !is_hex_spec;
      rewrite !(bool_decide_true (_ ∈ hex_digits)) by done;
      by destruct newline.
Qed.

Example color_format_edges :
  match_COLOR_REGEX "#FFF" = true
  ∧ match_COLOR_REGEX "#ffcc00" = true
  ∧ match_COLOR_REGEX "#ffcc0" = false
  ∧ match_COLOR_REGEX "blue" = false
  ∧ match_COLOR_REGEX "FFF" = false.
Proof. vm_compute. repeat split; reflexivity. Qed.

(** ** Further properties of the Device Validator *)

(** X9: a device type that is not one of the known ones gives exactly the
    one error "Incorrect device type ...", whatever else the record holds,
    once the shape check of the mode is passed.  The type is the caller's in
    update mode and the record's own in new-device mode, where it may be any
    value that can be looked up in a set; when it is an int of more than
    4300 digits the error cannot be made, and the call raises ValueError. *)
Theorem unknown_device_type (device_data : dict) (new_device : bool)
    (given_type : string) (device_type : pyval) :
  (if new_device
   then key_set device_data = DEVICE_PARAMETERS
        ∧ getitem device_data "type" = Ret device_type
   else ("id" ∉ keys device_data) ∧ ("type" ∉ keys device_data)
        ∧ device_type = VStr given_type) →
  contains DEVICE_TYPES device_type = Ret false →
  ((∀ z, device_type = VInt z → printable z) →
   validate_device_data device_data new_device given_type
   = Ret (false, [[Lit "Incorrect device type "; Fmt device_type;
                   Lit ", must be one of "; FmtSet DEVICE_TYPES; Lit "."]]))
  ∧ (∀ z, device_type = VInt z → ¬ printable z →
       validate_device_data device_data new_device given_type
       = Raise ValueError).
Proof.
  intros Hshape Hunknown.
  assert (validate_device_data device_data new_device given_type
          = let* error :=
              fstring [Lit "Incorrect device type "; Fmt device_type;
                       Lit ", must be one of "; FmtSet DEVICE_TYPES;
                       Lit "."] in
            Ret (false, [error])) as ->.
  { unfold validate_device_data. destruct new_device.
    - destruct Hshape as [Hkeys ->].
      rewrite bool_decide_false by (by intros ?). cbn [bind].
      unfold validate_fields. by rewrite Hunknown.
    - destruct Hshape as (Hid & Htype & ->).
      rewrite !bool_decide_false by done. cbn [app].
      unfold validate_fields. by rewrite Hunknown. }
  unfold fstring. cbn [forallb]. rewrite andb_true_r. split.
  - intros Hprintable.
    destruct device_type as [| |z| | | |]; try done.
    cbn [formattable].
    by rewrite (proj2 (has_text_spec z)) by by apply Hprintable.
  - intros z -> Hz%has_text_false. cbn [formattable]. by rewrite Hz.
Qed.

Lemma unknown_device_type_witness :
  validate_device_data
    [("status", VList []); ("parameters", VDict [("position", VNone)])]
    false "smart_toaster"
  = Ret (false, [[Lit "Incorrect device type "; Fmt (VStr "smart_toaster");
                  Lit ", must be one of "; FmtSet DEVICE_TYPES; Lit "."]]).
Proof.
  apply (unknown_device_type _ false "smart_toaster" (VStr "smart_toaster")).
  - split; [by_evaluation|]. split; [by_evaluation | reflexivity].
  - vm_compute. reflexivity.
  - discriminate.
Defined.

(** In new-device mode a ['type'] that is a number of 4301 digits: no error
    is reported, the call raises. *)
Example unknown_device_type_number :
  validate_device_data
    [("id", VStr "d1"); ("type", VInt huge_int); ("room", VStr "hall");
     ("name", VStr "lamp"); ("status", VStr "on"); ("parameters", VDict [])]
    true ""
  = Raise ValueError.
Proof. vm_compute. reflexivity. Qed.

(** *** The exceptions that leave the validator *)

Lemma raises_in_Ret {A} P (a : A) : raises_in P (Ret a).
Proof. by intros e. Qed.

Lemma raises_in_bind {A B} P (m : outcome A) (k : A → outcome B) :
  raises_in P m → (∀ a, m = Ret a → raises_in P (k a)) →
  raises_in P (bind m k).
Proof.
  intros Hm Hk e. destruct m as [a|e']; simpl.
  - by apply Hk.
  - intros [= ->]. by apply Hm.
Qed.

Lemma raises_in_for_each {A} P (l : list A) body errors :
  (∀ x errors, x ∈ l → raises_in P (body x errors)) →
  raises_in P (for_each l body errors).
Proof.
  revert errors. induction l as [|x l IH]; intros errors Hbody; simpl.
  - apply raises_in_Ret.
  - apply raises_in_bind; [apply Hbody; left|].
    intros errors' _. apply IH. intros y errors'' Hy. apply Hbody. by right.
Qed.

Lemma raises_in_check_other P value name cls value_range errors :
  cls ≠ TInt → raises_in P (check value name cls value_range errors).
Proof.
  intros Hcls e. unfold check.
  by destruct (verify_other_returns value name cls value_range Hcls)
    as [[success reason] ->].
Qed.

(** The check of an integer parameter, with no range or with bounds that can
    be printed, raises as [refused] says only. *)
Lemma raises_in_check_int (P : exn → Prop) value name value_range errors :
  match value_range with
  | NoRange => True
  | Range minimum maximum => printable minimum ∧ printable maximum
  | _ => False
  end →
  (∀ e, refused value e → P e) →
  raises_in P (check value name TInt value_range errors).
Proof.
  intros Hrange HP e. unfold check.
  destruct (verify_type_and_range value name TInt value_range)
    as [[success reason]|e'] eqn:Hv; simpl; [done|].
  intros [= ->]. apply HP. unfold refused.
  apply verify_int_raises in Hv
    as [[-> Hvalue]|[[-> [negative ->]]|[-> Hvalue]]];
    [| | |by destruct value_range].
  - by destruct Hvalue as [->|[[l ->]|[d ->]]].
  - done.
  - destruct Hvalue as (z & minimum & maximum & -> & -> & _ & Htext).
    split; [done|]. intros Hz. apply Htext. by destruct Hrange.
Qed.

Lemma printable_bounds :
  Forall printable
    [MIN_WATER_TEMP; MAX_WATER_TEMP; MIN_AC_TEMP; MAX_AC_TEMP;
     MIN_BRIGHTNESS; MAX_BRIGHTNESS; MIN_POSITION; MAX_POSITION;
     MIN_BATTERY; MAX_BATTERY].
Proof. by_evaluation. Qed.

Lemma raises_in_items (P : exn → Prop) new_device key value errors :
  (∀ e, refused value e → P e) →
  raises_in P (door_lock_item new_device (key, value) errors)
  ∧ raises_in P (curtain_item (key, value) errors)
  ∧ raises_in P (air_conditioner_item (key, value) errors)
  ∧ raises_in P (water_heater_item (key, value) errors)
  ∧ raises_in P (light_item new_device (key, value) errors).
Proof.
  intros HP.
  pose proof printable_bounds as Hbounds.
  repeat (apply Forall_cons in Hbounds as [? Hbounds]).
  unfold door_lock_item, curtain_item, air_conditioner_item,
    water_heater_item, light_item.
  repeat split; repeat (case_bool_decide || case_match);
    first [ apply raises_in_Ret
          | by apply raises_in_check_other
          | by apply raises_in_check_int ].
Qed.

Lemma contains_raises s x e :
  contains s x = Raise e → e = TypeError ∧ ¬ hashable x.
Proof. destruct x; simpl; intros ?; simplify_eq; split; tauto. Qed.

Lemma raises_in_status_field P device_data device_type known errors :
  contains DEVICE_TYPES device_type = Ret known →
  "status" ∈ keys device_data →
  raises_in P (status_field device_data device_type errors).
Proof.
  intros Hknown [status Hstatus]%getitem_in_keys. unfold status_field.
  rewrite Hknown, Hstatus. cbn [bind].
  destruct known; [|apply raises_in_Ret].
  repeat case_match; by apply raises_in_check_other.
Qed.

Lemma raises_in_parameters_field (P : exn → Prop) device_data new_device
    device_type known errors :
  contains DEVICE_TYPES device_type = Ret known →
  "parameters" ∈ keys device_data →
  (∀ parameters item e,
     getitem device_data "parameters" = Ret (VDict parameters) →
     item ∈ parameters → refused item.2 e → P e) →
  raises_in P (parameters_field device_data new_device device_type errors).
Proof.
  intros Hknown [parameters Hget]%getitem_in_keys HP. unfold parameters_field.
  rewrite Hknown, Hget. cbn [bind].
  destruct known; [|apply raises_in_Ret].
  destruct (verify_other_returns parameters "'parameters'" TDict NoRange)
    as [[success reason] Hv]; [done|].
  rewrite Hv. cbn [bind]. destruct success; cbn [negb];
    [|apply raises_in_Ret].
  destruct parameters as [| | | | | |parameters]; try done.
  repeat case_match;
    first [ apply raises_in_Ret
          | apply raises_in_for_each; intros [key value] errors' Hitem;
            by destruct (raises_in_items P new_device key value errors'
                           (λ e, HP parameters (key, value) e Hget Hitem))
              as (? & ? & ? & ? & ?) ].
Qed.

Lemma raises_in_validate_fields (P : exn → Prop) device_data new_device
    device_type :
  (¬ hashable device_type → P TypeError) →
  (∀ z, device_type = VInt z → ¬ printable z → P ValueError) →
  (∀ parameters item e,
     getitem device_data "parameters" = Ret (VDict parameters) →
     item ∈ parameters → refused item.2 e → P e) →
  raises_in P (validate_fields device_data new_device device_type).
Proof.
  intros Htype Hnumber HP. unfold validate_fields.
  apply raises_in_bind.
  { intros e [-> Hhash]%contains_raises. by apply Htype. }
  intros known Hknown. destruct known; cbn [negb].
  { apply raises_in_bind; [|intros [|? ?] _; apply raises_in_Ret].
    apply raises_in_for_each. intros field errors Hfield. unfold field_body.
    apply raises_in_bind.
    - case_bool_decide as Hstatus; [|apply raises_in_Ret]. subst field.
      by eapply raises_in_status_field.
    - intros errors' _.
      case_bool_decide as Hparameters; [|apply raises_in_Ret]. subst field.
      by eapply raises_in_parameters_field. }
  unfold fstring. cbn [forallb]. rewrite andb_true_r.
  destruct device_type as [| |z| | | |]; try apply raises_in_Ret; try done.
  cbn [formattable]. destruct (has_text z) eqn:Hz; [apply raises_in_Ret|].
  intros e [= <-]. apply (Hnumber z); [done|]. by apply has_text_false.
Qed.

Lemma raises_in_validate (P : exn → Prop) device_data new_device
    device_type :
  (new_device = true → ∀ v,
     getitem device_data "type" = Ret v → ¬ hashable v → P TypeError) →
  (new_device = true → ∀ z,
     getitem device_data "type" = Ret (VInt z) → ¬ printable z →
     P ValueError) →
  (∀ parameters item e,
     getitem device_data "parameters" = Ret (VDict parameters) →
     item ∈ parameters → refused item.2 e → P e) →
  raises_in P (validate_device_data device_data new_device device_type).
Proof.
  intros Htype Hnumber HP. unfold validate_device_data. destruct new_device.
  - case_bool_decide as Hkeys; [apply raises_in_Ret|].
    destruct (getitem_in_keys device_data "type") as [v Hv].
    { apply (elem_of_list_to_set (C:=gset string)).
      fold (key_set device_data).
      rewrite Hkeys. by_evaluation. }
    rewrite Hv. cbn [bind]. apply raises_in_validate_fields; [| |done].
    + by apply Htype.
    + intros z ->. by apply Hnumber.
  - repeat case_bool_decide; cbn [app]; try apply raises_in_Ret.
    apply raises_in_validate_fields; [| |done]; [simpl; tauto | done].
Qed.

(** X10: the only exceptions that can leave [validate_device_data] are
    TypeError, OverflowError and ValueError: no KeyError for a field or a
    parameter that is missing, no AttributeError for a ['parameters'] that
    is not a dict.  ValueError leaves it only for a record that holds a
    number of more than 4300 digits, as the ['type'] of a new device or as
    what [int] makes of a parameter: the error message that would show the
    number cannot be made. *)
Theorem validate_device_data_exceptions device_data new_device device_type
    e :
  validate_device_data device_data new_device device_type = Raise e →
  (e = TypeError ∨ e = OverflowError ∨ e = ValueError)
  ∧ (e = ValueError →
     (new_device = true
      ∧ ∃ z, getitem device_data "type" = Ret (VInt z) ∧ ¬ printable z)
     ∨ ∃ parameters key value z,
         getitem device_data "parameters" = Ret (VDict parameters)
         ∧ (key, value) ∈ parameters
         ∧ int value = Ret z ∧ ¬ printable z).
Proof.
  apply (raises_in_validate
           (λ e, (e = TypeError ∨ e = OverflowError ∨ e = ValueError)
                 ∧ (e = ValueError →
                    (new_device = true
                     ∧ ∃ z, getitem device_data "type" = Ret (VInt z)
                            ∧ ¬ printable z)
                    ∨ ∃ parameters key value z,
                        getitem device_data "parameters"
                        = Ret (VDict parameters)
                        ∧ (key, value) ∈ parameters
                        ∧ int value = Ret z ∧ ¬ printable z))).
  - intros _ v _ _. split; [by left | done].
  - intros Hnew z Hget Hz. split; [by right; right|]. intros _. left. eauto.
  - intros parameters [key value] e' Hget Hitem. unfold refused. simpl.
    destruct (int value) as [z|e''] eqn:Hint.
    + intros [-> Hz]. split; [by right; right|]. intros _. right.
      by exists parameters, key, value, z.
    + intros [-> Hother]. split; [|done].
      destruct (int_raises _ _ Hint) as [[-> _]|[[-> _]|[-> _]]]; tauto.
Qed.

Lemma validate_device_data_exceptions_witness :
  (ValueError = TypeError ∨ ValueError = OverflowError
   ∨ ValueError = ValueError)
  ∧ (ValueError = ValueError →
     (false = true
      ∧ ∃ z, getitem [("parameters", VDict [("position", VInt huge_int)])]
                "type" = Ret (VInt z) ∧ ¬ printable z)
     ∨ ∃ parameters key value z,
         getitem [("parameters", VDict [("position", VInt huge_int)])]
           "parameters" = Ret (VDict parameters)
         ∧ (key, value) ∈ parameters
         ∧ int value = Ret z ∧ ¬ printable z).
Proof.
  apply (validate_device_data_exceptions
           [("parameters", VDict [("position", VInt huge_int)])]
           false "curtain").
  vm_compute. reflexivity.
Defined.

(** X11: the call returns a result, with no exception, for every record
    whose parameters are all values for which the check of an integer gives
    a result ([int] takes them, giving a number of 4300 digits at most, or
    refuses them with ValueError: so anything but None, a list, a dict, an
    infinite float, a number of more digits) and, in new-device mode, whose
    ['type'] is not a list, a dict or a number of more than 4300 digits.
    What the other fields hold does not matter. *)
Theorem validate_device_data_returns device_data new_device device_type :
  (new_device = true → ∀ v,
     getitem device_data "type" = Ret v →
     hashable v ∧ ∀ z, v = VInt z → printable z) →
  (∀ parameters,
     getitem device_data "parameters" = Ret (VDict parameters) →
     Forall (λ item, checkable item.2) parameters) →
  ∃ ok errors,
    validate_device_data device_data new_device device_type
    = Ret (ok, errors).
Proof.
  intros Htype Hparameters.
  destruct (validate_device_data device_data new_device device_type)
    as [[ok errors]|e] eqn:Hv; [eauto|].
  exfalso. revert Hv. apply (raises_in_validate (λ _, False)).
  - intros Hnew v Hget Hhash. apply Hhash. by apply (Htype Hnew v).
  - intros Hnew z Hget Hz. apply Hz.
    by apply (proj2 (Htype Hnew _ Hget) z).
  - intros parameters item e' Hget Hitem.
    pose proof (proj1 (Forall_forall _ _) (Hparameters parameters Hget)
                  item Hitem) as Hcheckable.
    unfold refused. unfold checkable in Hcheckable.
    destruct (int item.2); [tauto|]. intros [-> Hother]. done.
Qed.

Lemma validate_device_data_returns_witness :
  ∃ ok errors,
    validate_device_data
      [("status", VNone); ("room", VList []);
       ("parameters", VDict [("brightness", VStr "fifty");
                             ("color", VInt 7)])]
      false "light"
    = Ret (ok, errors).
Proof.
  apply validate_device_data_returns.
  - discriminate.
  - intros parameters [= <-].
    apply Forall_cons_2; [reflexivity|].
    apply Forall_cons_2; [by_evaluation|].
    apply Forall_nil_2.
Defined.

(** *** What the validator reads *)

(** The result depends on the record through its list of keys and the
    values of ['type'], ['status'] and ['parameters'] only. *)
Lemma validate_device_data_ext (d d' : dict) new_device device_type :
  keys d = keys d' →
  getitem d "type" = getitem d' "type" →
  getitem d "status" = getitem d' "status" →
  getitem d "parameters" = getitem d' "parameters" →
  validate_device_data d new_device device_type
  = validate_device_data d' new_device device_type.
Proof.
  intros Hkeys Htype Hstatus Hparameters.
  assert (∀ v, validate_fields d new_device v = validate_fields d' new_device v)
    as Hfields.
  { intros v. unfold validate_fields. rewrite Hkeys.
    destruct (contains DEVICE_TYPES v) as [[]|]; simpl; try done.
    rewrite (for_each_ext _ _ (field_body d' new_device v)); [done|].
    intros field errors _.
    unfold field_body, status_field, parameters_field.
    by rewrite Hstatus, Hparameters. }
  unfold validate_device_data, incorrect_fields, key_set.
  rewrite Hkeys, Htype. destruct new_device.
  - case_bool_decide; [done|].
    destruct (getitem d' "type"); simpl; [apply Hfields | done].
  - repeat case_bool_decide; simpl; try done; apply Hfields.
Qed.

Lemma keys_set_value key v d : keys (set_value key v d) = keys d.
Proof.
  unfold keys, set_value. rewrite <- list_fmap_compose.
  apply list_fmap_ext. intros _ [k x] _. simpl.
  case_bool_decide; simpl; congruence.
Qed.

Lemma getitem_set_value key v d k :
  getitem (set_value key v d) k
  = if bool_decide (k = key)
    then match getitem d k with Ret _ => Ret v | Raise e => Raise e end
    else getitem d k.
Proof.
  induction d as [|[k' x] d IH]; simpl.
  - by case_bool_decide.
  - destruct (decide (k' = key)) as [->|Hk'].
    + rewrite (bool_decide_true (key = key)) by done. simpl.
      destruct (decide (key = k)) as [->|Hk].
      * by rewrite !bool_decide_true.
      * rewrite (bool_decide_false (key = k)) by done. apply IH.
    + rewrite (bool_decide_false (k' = key)) by done. simpl.
      destruct (decide (k' = k)) as [->|Hk].
      * rewrite (bool_decide_true (k = k)) by done.
        by rewrite (bool_decide_false (k = key)).
      * rewrite (bool_decide_false (k' = k)) by done. apply IH.
Qed.

(** X12: the values of the top-level fields other than ['type'], ['status']
    and ['parameters'] (['id'], ['room'], ['name'], and any other key of an
    update) are never looked at: replacing one by any value leaves the
    result of the call as it was, in both modes. *)
Theorem other_fields_not_inspected key v device_data new_device device_type :
  key ≠ "type" → key ≠ "status" → key ≠ "parameters" →
  validate_device_data (set_value key v device_data) new_device device_type
  = validate_device_data device_data new_device device_type.
Proof.
  intros Htype Hstatus Hparameters.
  apply validate_device_data_ext.
  - apply keys_set_value.
  - rewrite getitem_set_value. by rewrite bool_decide_false.
  - rewrite getitem_set_value. by rewrite bool_decide_false.
  - rewrite getitem_set_value. by rewrite bool_decide_false.
Qed.

Lemma other_fields_not_inspected_witness :
  validate_device_data
    (set_value "room" (VList [VNone])
       [("id", VStr "light01"); ("type", VStr "light");
        ("room", VStr "kitchen"); ("name", VStr "Ceiling Light");
        ("status", VStr "on"); ("parameters", VDict [])])
    true ""
  = validate_device_data
      [("id", VStr "light01"); ("type", VStr "light");
       ("room", VStr "kitchen"); ("name", VStr "Ceiling Light");
       ("status", VStr "on"); ("parameters", VDict [])]
      true "".
Proof. by apply other_fields_not_inspected. Defined.

(** *** Errors are only added *)

Lemma adds_any_items new_device item :
  adds (λ _, True) (door_lock_item new_device item)
  ∧ adds (λ _, True) (curtain_item item)
  ∧ adds (λ _, True) (air_conditioner_item item)
  ∧ adds (λ _, True) (water_heater_item item)
  ∧ adds (λ _, True) (light_item new_device item).
Proof.
  destruct item as [key value].
  unfold door_lock_item, curtain_item, air_conditioner_item,
    water_heater_item, light_item.
  repeat split; repeat (case_bool_decide || case_match);
    first [ apply adds_Ret
          | by apply adds_check
          | by apply (adds_append (λ _, True)) ].
Qed.

Lemma adds_any_status_field device_data device_type :
  adds (λ _, True) (status_field device_data device_type).
Proof.
  intros errors errors'. unfold status_field.
  destruct (contains DEVICE_TYPES device_type) as [[]|]; simpl;
    [|apply adds_Ret|done].
  destruct (getitem device_data "status") as [status|]; simpl; [|done].
  repeat case_match; by apply adds_check.
Qed.

Lemma adds_any_parameters_field device_data new_device device_type :
  adds (λ _, True) (parameters_field device_data new_device device_type).
Proof.
  intros errors errors'. unfold parameters_field.
  destruct (contains DEVICE_TYPES device_type) as [[]|]; simpl;
    [|apply adds_Ret|done].
  destruct (getitem device_data "parameters") as [parameters|]; simpl;
    [|done].
  destruct (verify_type_and_range parameters "'parameters'" TDict NoRange)
    as [[[] reason]|] eqn:Hv; simpl; [| |done].
  - destruct parameters; try done.
    repeat case_match;
      first [ apply adds_Ret
            | by apply (adds_append (λ _, True))
            | apply adds_for_each; intros item _;
              by destruct (adds_any_items new_device item)
                as (? & ? & ? & ? & ?) ].
  - pose proof (verify_type_and_range_reason _ _ _ _ _ _ Hv) as [m ->].
    by apply (adds_append (λ _, True) m).
Qed.

Lemma adds_any_field_body device_data new_device device_type field :
  adds (λ _, True) (field_body device_data new_device device_type field).
Proof.
  unfold field_body.
  apply (adds_bind _
           (λ errors, if bool_decide (field = "status")
                      then status_field device_data device_type errors
                      else Ret errors)
           (λ errors, if bool_decide (field = "parameters")
                      then parameters_field device_data new_device
                             device_type errors
                      else Ret errors)).
  - case_bool_decide; [apply adds_any_status_field | apply adds_Ret].
  - case_bool_decide; [apply adds_any_parameters_field | apply adds_Ret].
Qed.

(** A loop that ends with no error had no error at any step. *)
Lemma for_each_no_error {A} (l : list A) body x :
  (∀ y, adds (λ _, True) (body y)) →
  for_each l body [] = Ret [] → x ∈ l → body x [] = Ret [].
Proof.
  intros Hadds. induction l as [|y l IH]; simpl.
  - by intros _ ?%elem_of_nil.
  - intros (errors & Hy & Hrest)%bind_Ret Hx.
    destruct (adds_for_each _ l body (λ z _, Hadds z) _ _ Hrest)
      as (new & Hnew & _).
    symmetry in Hnew. apply app_eq_nil in Hnew as [-> ->].
    apply elem_of_cons in Hx as [->|Hx]; [done | by apply IH].
Qed.

Lemma for_each_all_quiet {A} (l : list A) body :
  (∀ x, x ∈ l → body x [] = Ret []) → for_each l body [] = Ret [].
Proof.
  induction l as [|x l IH]; intros Hquiet; simpl; [done|].
  rewrite Hquiet by left. simpl. apply IH.
  intros y Hy. apply Hquiet. by right.
Qed.

(** *** The status *)

Lemma status_field_known device_data device_type status errors :
  device_type ∈ DEVICE_TYPES →
  getitem device_data "status" = Ret status →
  status_field device_data (VStr device_type) errors
  = check status "'status'" TStr (OneOf (status_values device_type)) errors.
Proof.
  intros Hknown Hget. unfold status_field, status_values.
  rewrite contains_known, Hget by done. cbn [bind eq_str].
  by repeat case_bool_decide.
Qed.

Lemma check_enumeration value name allowed :
  ((∃ s, value = VStr s ∧ s ∈ allowed) →
   ∀ errors, check value name TStr (OneOf allowed) errors = Ret errors)
  ∧ (¬ (∃ s, value = VStr s ∧ s ∈ allowed) →
     ∃ m, ∀ errors,
       check value name TStr (OneOf allowed) errors = Ret (errors ++ [m])).
Proof.
  unfold check, verify_type_and_range. simpl. split.
  - intros (s & -> & Hin) errors. simpl.
    by rewrite bool_decide_false by eauto.
  - intros Hinvalid. destruct value; simpl; eauto.
    case_bool_decide; simpl; [eauto|].
    exfalso. apply Hinvalid. exists s. split; [done|].
    by destruct (decide (s ∈ allowed)).
Qed.

(** X13: in update mode, for a known device type, a record without ['id'],
    ['type'] and ['parameters'] is valid exactly when its ['status'], if it
    has one, is a string among the status values of the device type:
    "unlocked" or "locked" for a door lock, "open" or "closed" for a curtain,
    "on" or "off" for the others. *)
Theorem status_decides device_data device_type :
  device_type ∈ DEVICE_TYPES →
  "id" ∉ keys device_data → "type" ∉ keys device_data →
  "parameters" ∉ keys device_data →
  validate_device_data device_data false device_type = Ret (true, [])
  ↔ ∀ status, getitem device_data "status" = Ret status →
      ∃ s, status = VStr s ∧ s ∈ status_values device_type.
Proof.
  intros Hknown Hid Htype Hparameters.
  rewrite (reaches_fields_validate _ _ _ device_type) by done.
  split.
  - intros (errors & Hloop & Hend)%bind_Ret status Hget.
    assert (errors = []) as -> by (destruct errors; by simplify_eq).
    assert ((∃ s, status = VStr s ∧ s ∈ status_values device_type)
            ∨ ¬ (∃ s, status = VStr s ∧ s ∈ status_values device_type))
      as [|Hinvalid]; [|done|exfalso].
    { destruct status; try (right; by intros (? & ? & ?)).
      destruct (decide (s ∈ status_values device_type));
        [left; eauto | right; intros (? & [= <-] & ?); done]. }
    apply (proj2 (check_enumeration status "'status'" _)) in Hinvalid
      as [m Hm].
    apply (elem_of_nil m). revert Hloop.
    apply (for_each_reports (λ _, True) _ _ "status").
    + intros field. apply adds_any_field_body.
    + by eapply getitem_Ret_in_keys.
    + intros errors1 errors2. unfold field_body.
      eval_string_tests. cbn [bind].
      rewrite (status_field_known _ _ status), Hm by done.
      cbn [bind]. intros [= <-]. set_solver.
  - intros Hstatus.
    rewrite for_each_all_quiet; [done|].
    intros field Hfield. unfold field_body.
    rewrite (bool_decide_false (field = "parameters")) by (by intros ->).
    case_bool_decide as Hfield'; [|done]. subst field.
    destruct (getitem_in_keys _ _ Hfield) as [status Hget].
    rewrite (status_field_known _ _ status) by done.
    by rewrite (proj1 (check_enumeration status "'status'" _)
                  (Hstatus status Hget)).
Qed.

Lemma status_decides_witness :
  validate_device_data [("status", VStr "closed"); ("name", VNone)]
    false "curtain" = Ret (true, [])
  ↔ ∀ status,
      getitem [("status", VStr "closed"); ("name", VNone)] "status"
      = Ret status →
      ∃ s, status = VStr s ∧ s ∈ status_values "curtain".
Proof. apply status_decides; by_evaluation. Defined.

(** *** A ['parameters'] that is not a mapping *)

(** When the branch of ['parameters'] adds just [m], the call fails with [m]
    among what the check of ['status'] reports. *)
Lemma validate_parameters_error device_data new_device given_type device_type
    parameters m :
  dict_wf device_data →
  reaches_fields device_data new_device given_type device_type →
  getitem device_data "parameters" = Ret parameters →
  (∀ errors,
     parameters_field device_data new_device (VStr device_type) errors
     = Ret (errors ++ [m])) →
  ∃ before after,
    validate_device_data device_data new_device given_type
    = Ret (false, before ++ m :: after)
    ∧ Forall status_error (before ++ after).
Proof.
  intros Hwf Hreach Hget Hm.
  rewrite (reaches_fields_validate _ _ _ _ Hreach).
  destruct Hreach as [Hknown _].
  destruct (getitem_split _ _ _ Hget) as (d1 & d2 & Hd & Hd1).
  assert (keys device_data = keys d1 ++ "parameters" :: keys d2) as Hkeys.
  { rewrite Hd. unfold keys. by rewrite fmap_app. }
  assert ("parameters" ∉ keys d2) as Hd2.
  { unfold dict_wf in Hwf. rewrite Hkeys in Hwf.
    apply NoDup_app in Hwf as (_ & _ & Hwf). by apply NoDup_cons in Hwf as []. }
  rewrite Hkeys, for_each_app.
  destruct (for_each_other_fields device_data new_device device_type
              (keys d1) []) as (before & -> & Hbefore); [done| |done|].
  { rewrite Hkeys. set_solver. }
  cbn [bind for_each app]. unfold field_body at 1.
  eval_string_tests. cbn [bind]. rewrite Hm. cbn [bind].
  destruct (for_each_other_fields device_data new_device device_type
              (keys d2) (before ++ [m])) as (after & -> & Hafter);
    [done| |done|].
  { rewrite Hkeys. set_solver. }
  exists before, after. cbn [bind]. rewrite <- app_assoc. simpl. split.
  - by destruct before.
  - by apply Forall_app.
Qed.

(** X14: for a record that passes the checks made before the loop over its
    fields, a ['parameters'] that is not a dict makes the call fail with the
    one error "'parameters' must be a <class 'dict'>, got <its type>
    instead."; the only other errors are those of the check of
    ['status']. *)
Theorem parameters_not_a_mapping device_data new_device given_type
    device_type parameters :
  dict_wf device_data →
  reaches_fields device_data new_device given_type device_type →
  getitem device_data "parameters" = Ret parameters →
  type_of parameters ≠ TDict →
  ∃ before after,
    validate_device_data device_data new_device given_type
    = Ret (false,
           before
           ++ [Fmt (VStr "'parameters'"); Lit " must be a "; FmtType TDict;
               Lit ", got "; FmtType (type_of parameters); Lit " instead."]
              :: after)
    ∧ Forall status_error (before ++ after).
Proof.
  intros Hwf Hreach Hget Htype.
  apply (validate_parameters_error _ _ _ device_type parameters);
    try done.
  intros errors. unfold parameters_field.
  rewrite contains_known, Hget by apply Hreach. cbn [bind].
  unfold verify_type_and_range, bind, fstring.
  rewrite (bool_decide_false (TDict = TInt)) by done.
  by rewrite bool_decide_true.
Qed.

Lemma parameters_not_a_mapping_witness :
  ∃ before after,
    validate_device_data
      [("status", VStr "ajar"); ("parameters", VList [VInt 50])]
      false "curtain"
    = Ret (false,
           before
           ++ [Fmt (VStr "'parameters'"); Lit " must be a "; FmtType TDict;
               Lit ", got "; FmtType (type_of (VList [VInt 50]));
               Lit " instead."]
              :: after)
    ∧ Forall status_error (before ++ after).
Proof.
  apply (parameters_not_a_mapping _ false "curtain" "curtain").
  - unfold dict_wf. by_evaluation.
  - split; [by_evaluation|]. split; [by_evaluation|].
    split; [by_evaluation | reflexivity].
  - reflexivity.
  - discriminate.
Defined.

(** *** Parameters are optional *)

(** One branch of the dispatch on the device type: with no error for
    [parameters], none for a part of them. *)
Lemma branch_subset (allowed : gset string) body device
    (parameters parameters' : dict) :
  (∀ item, adds (λ _, True) (body item)) →
  parameters' ⊆ parameters →
  (if bool_decide (key_set parameters ∖ allowed ≠ ∅)
   then Ret ([] ++ [disallowed device (key_set parameters ∖ allowed)
                      allowed])
   else for_each parameters body []) = Ret [] →
  (if bool_decide (key_set parameters' ∖ allowed ≠ ∅)
   then Ret ([] ++ [disallowed device (key_set parameters' ∖ allowed)
                      allowed])
   else for_each parameters' body []) = Ret [].
Proof.
  intros Hadds Hsub. case_bool_decide as Hleft; [done|]. intros Hloop.
  rewrite bool_decide_false.
  - apply for_each_all_quiet. intros item Hitem.
    apply (for_each_no_error parameters); [done..|]. by apply Hsub.
  - intros Hleft'. apply Hleft'.
    assert (key_set parameters' ⊆ key_set parameters) as Hkeys.
    { unfold key_set, keys. intros key.
      rewrite !elem_of_list_to_set, !list_elem_of_fmap.
      intros (item & -> & Hitem). exists item. split; [done|].
      by apply Hsub. }
    set_solver.
Qed.

Lemma parameters_field_subset (d d' : dict) new_device device_type
    parameters parameters' :
  getitem d "parameters" = Ret (VDict parameters) →
  getitem d' "parameters" = Ret (VDict parameters') →
  parameters' ⊆ parameters →
  parameters_field d new_device device_type [] = Ret [] →
  parameters_field d' new_device device_type [] = Ret [].
Proof.
  intros Hget Hget' Hsub. unfold parameters_field.
  rewrite Hget, Hget'.
  destruct (contains DEVICE_TYPES device_type) as [[]|]; cbn [bind];
    [|done..].
  rewrite !verify_dict. cbn [bind negb].
  repeat match goal with
    | |- context [eq_str ?v ?s] => destruct (eq_str v s)
    end;
    try done;
    apply branch_subset; try done; intros item;
    by destruct (adds_any_items new_device item) as (? & ? & ? & ? & ?).
Qed.

Lemma validate_fields_subset (d d' : dict) new_device device_type
    parameters parameters' :
  keys d' = keys d →
  getitem d' "status" = getitem d "status" →
  getitem d "parameters" = Ret (VDict parameters) →
  getitem d' "parameters" = Ret (VDict parameters') →
  parameters' ⊆ parameters →
  validate_fields d new_device device_type = Ret (true, []) →
  validate_fields d' new_device device_type = Ret (true, []).
Proof.
  intros Hkeys Hstatus Hget Hget' Hsub. unfold validate_fields.
  rewrite Hkeys.
  destruct (contains DEVICE_TYPES device_type) as [[]|]; cbn [bind negb];
    [|done..].
  intros (errors & Hloop & Hend)%bind_Ret.
  assert (errors = []) as -> by (destruct errors; by simplify_eq).
  rewrite for_each_all_quiet; [done|].
  intros field Hfield.
  pose proof (for_each_no_error _ _ field
                (adds_any_field_body d new_device device_type)
                Hloop Hfield) as Hquiet.
  revert Hquiet. unfold field_body.
  assert (status_field d' device_type [] = status_field d device_type [])
    as -> by (unfold status_field; by rewrite Hstatus).
  intros (errors1 & Hfirst & Hsecond)%bind_Ret.
  assert (errors1 = []) as ->.
  { assert (adds (λ _, True)
              (λ errors, if bool_decide (field = "parameters")
                         then parameters_field d new_device device_type
                                errors
                         else Ret errors)) as Hadds.
    { case_bool_decide;
        [apply adds_any_parameters_field | apply adds_Ret]. }
    destruct (Hadds _ _ Hsecond) as (new & Hnew & _).
    symmetry in Hnew. by apply app_eq_nil in Hnew as [-> _]. }
  rewrite Hfirst. cbn [bind].
  destruct (bool_decide (field = "parameters")); [|done].
  by apply (parameters_field_subset d d' _ _ parameters parameters').
Qed.

(** X15: no parameter is required, and a parameter is judged on its own:
    when a record is valid, it stays valid with any part of its parameters
    in place of them all (some removed, or all), in both modes. *)
Theorem fewer_parameters_stay_valid device_data new_device device_type
    parameters parameters' :
  validate_device_data device_data new_device device_type = Ret (true, []) →
  getitem device_data "parameters" = Ret (VDict parameters) →
  parameters' ⊆ parameters →
  validate_device_data
    (set_value "parameters" (VDict parameters') device_data)
    new_device device_type
  = Ret (true, []).
Proof.
  intros Hvalid Hget Hsub.
  set (d' := set_value "parameters" (VDict parameters') device_data).
  assert (keys d' = keys device_data) as Hkeys by apply keys_set_value.
  assert (getitem d' "status" = getitem device_data "status") as Hstatus.
  { unfold d'. by rewrite getitem_set_value. }
  assert (getitem d' "type" = getitem device_data "type") as Htype.
  { unfold d'. by rewrite getitem_set_value. }
  assert (getitem d' "parameters" = Ret (VDict parameters')) as Hget'.
  { unfold d'. rewrite getitem_set_value, Hget.
    by rewrite bool_decide_true. }
  revert Hvalid. unfold validate_device_data, key_set.
  rewrite Hkeys, Htype. destruct new_device.
  - case_bool_decide; [done|].
    destruct (getitem device_data "type") as [v|]; cbn [bind]; [|done].
    by apply (validate_fields_subset _ _ _ _ parameters parameters').
  - repeat case_bool_decide; cbn [app]; try done.
    by apply (validate_fields_subset _ _ _ _ parameters parameters').
Qed.

Lemma fewer_parameters_stay_valid_witness :
  validate_device_data
    (set_value "parameters" (VDict [("color", VStr "#FF00FF")])
       [("status", VStr "off");
        ("parameters", VDict [("brightness", VInt 50);
                              ("color", VStr "#FF00FF")])])
    false "light"
  = Ret (true, []).
Proof.
  apply (fewer_parameters_stay_valid _ false "light"
           [("brightness", VInt 50); ("color", VStr "#FF00FF")]).
  - vm_compute. reflexivity.
  - reflexivity.
  - intros item Hitem. apply list_elem_of_singleton in Hitem as ->.
    right. left.
Defined.

(** ** The release script *)

Example get_current_version_runs :
  get_current_version
    (String "010" "[project]" +:+ String "010" "name = 'x'"
     +:+ String "010" ("version   =" +:+ String quote "1.12.3"
                       +:+ String quote "" +:+ String "010" ""))
  = Ret (1, 12, 3)
  ∧ get_current_version "version = 1.2.3" = Raise ValueError.
Proof. vm_compute. split; reflexivity. Qed.

(** X16: for each of the parts "major", "minor" and "patch",
    [bump_version] returns a version, and this version is greater than the
    one given, in the order of tuples; for any other part it raises
    ValueError. *)
Theorem bump_version_increases version part :
  (part = "major" ∨ part = "minor" ∨ part = "patch" →
   ∃ version',
     bump_version version part = Ret version'
     ∧ version_lt version version')
  ∧ (part ≠ "major" ∧ part ≠ "minor" ∧ part ≠ "patch" →
     bump_version version part = Raise ValueError).
Proof.
  destruct version as [[major minor] patch]. unfold bump_version.
  split.
  - intros [->|[->| ->]]; eval_string_tests; cbv iota;
      eexists; (split; [reflexivity|]); simpl; lia.
  - intros (Hmajor & Hminor & Hpatch). by rewrite !bool_decide_false.
Qed.

Example bump_version_runs :
  bump_version (1, 9, 3) "major" = Ret (2, 0, 0)
  ∧ bump_version (1, 9, 3) "minor" = Ret (1, 10, 0)
  ∧ bump_version (1, 9, 3) "patch" = Ret (1, 9, 4)
  ∧ bump_version (1, 9, 3) "Major" = Raise ValueError.
Proof. vm_compute. repeat split; reflexivity. Qed.

(** *** The version line *)

Lemma literal_spec lit l l' : literal lit l = Some l' ↔ l = lit ++ l'.
Proof.
  revert l. induction lit as [|c lit IH]; intros l; simpl.
  - split; [by intros [= ->] | by intros ->].
  - destruct l as [|c' l]; [done|].
    case_bool_decide as Hc.
    + subst c'. rewrite IH. split; [by intros -> | by intros [= ->]].
    + split; [done | intros [= ? ?]; done].
Qed.

Lemma lstrip_spec l :
  ∃ ws, l = ws ++ lstrip is_space l ∧ Forall (λ c, is_space c = true) ws.
Proof.
  induction l as [|c l (ws & Hl & Hws)]; simpl.
  - by exists [].
  - destruct (is_space c) eqn:Hc.
    + exists (c :: ws). split; [by rewrite Hl at 1 | by constructor].
    + by exists [].
Qed.

Lemma lstrip_app ws c l :
  Forall (λ c, is_space c = true) ws → is_space c = false →
  lstrip is_space (ws ++ c :: l) = c :: l.
Proof.
  intros Hws Hc. induction Hws as [|c' ws Hc' _ IH]; simpl.
  - by rewrite Hc.
  - by rewrite Hc'.
Qed.

Lemma span_digits_spec l :
  l = (span_digits l).1 ++ (span_digits l).2
  ∧ Forall (λ c, is_digit c = true) (span_digits l).1.
Proof.
  induction l as [|c l [Hl Hds]]; simpl; [done|].
  destruct (is_digit c) eqn:Hc; simpl; [|done].
  destruct (span_digits l) as [ds rest]. simpl in *.
  split; [by rewrite Hl at 1 | by constructor].
Qed.

Lemma span_digits_app ds c l :
  Forall (λ c, is_digit c = true) ds → is_digit c = false →
  span_digits (ds ++ c :: l) = (ds, c :: l).
Proof.
  intros Hds Hc. induction Hds as [|c' ds Hc' _ IH]; simpl.
  - by rewrite Hc.
  - by rewrite Hc', IH.
Qed.

Lemma group_spec l ds rest :
  group l = Some (ds, rest) →
  l = ds ++ rest ∧ ds ≠ [] ∧ Forall (λ c, is_digit c = true) ds.
Proof.
  unfold group. destruct (span_digits_spec l) as [Hl Hds].
  destruct (span_digits l) as [[|c ds'] rest']; [done|].
  intros [= <- <-]. done.
Qed.

Lemma group_app ds c l :
  ds ≠ [] → Forall (λ c, is_digit c = true) ds → is_digit c = false →
  group (ds ++ c :: l) = Some (ds, c :: l).
Proof.
  intros Hne Hds Hc. unfold group. rewrite span_digits_app by done.
  by destruct ds.
Qed.

(** The pattern matches at the start of [l] exactly when [l] starts with a
    version line, and it gives the three groups and the rest. *)
Lemma match_version_spec l major minor patch rest :
  match_version l = Some (major, minor, patch, rest)
  ↔ ∃ ws1 ws2,
      l = version_line ws1 ws2 major minor patch ++ rest
      ∧ spaces ws1 ∧ spaces ws2
      ∧ digits_only major ∧ digits_only minor ∧ digits_only patch.
Proof.
  unfold version_line, spaces, digits_only. split.
  - unfold match_version.
    destruct (literal _ l) as [l1|] eqn:H1; [|done].
    destruct (literal _ (lstrip is_space l1)) as [l2|] eqn:H2; [|done].
    destruct (literal _ (lstrip is_space l2)) as [l3|] eqn:H3; [|done].
    destruct (group l3) as [[a l4]|] eqn:H4; [|done].
    destruct (literal _ l4) as [l5|] eqn:H5; [|done].
    destruct (group l5) as [[b l6]|] eqn:H6; [|done].
    destruct (literal _ l6) as [l7|] eqn:H7; [|done].
    destruct (group l7) as [[c l8]|] eqn:H8; [|done].
    destruct (literal _ l8) as [l9|] eqn:H9; [|done].
    intros [= <- <- <- <-].
    apply literal_spec in H1, H2, H3, H5, H7, H9.
    apply group_spec in H4 as (H4 & ? & ?), H6 as (H6 & ? & ?),
      H8 as (H8 & ? & ?).
    destruct (lstrip_spec l1) as (ws1 & Hl1 & Hws1).
    destruct (lstrip_spec l2) as (ws2 & Hl2 & Hws2).
    exists ws1, ws2. split; [|done].
    rewrite H1, Hl1, H2, Hl2, H3, H4, H5, H6, H7, H8, H9.
    by repeat (progress (rewrite <- ?app_assoc; cbn [app])).
  - intros (ws1 & ws2 & -> & Hws1 & Hws2 & [? ?] & [? ?] & [? ?]).
    repeat (progress (rewrite <- ?app_assoc; cbn [app])).
    unfold match_version.
    rewrite (proj2 (literal_spec _ _ _) eq_refl).
    rewrite lstrip_app by done.
    cbn [literal]. rewrite bool_decide_true by done.
    rewrite lstrip_app by done.
    cbn [literal]. rewrite bool_decide_true by done.
    rewrite group_app by done.
    cbn [literal]. rewrite bool_decide_true by done.
    rewrite group_app by done.
    cbn [literal]. rewrite bool_decide_true by done.
    rewrite group_app by done.
    cbn [literal]. by rewrite bool_decide_true.
Qed.

(** The text of a match is "v" and then characters that are no "v"; whatever
    comes after the match has no part in it. *)
Lemma match_version_text l found rest :
  match_version l = Some (found, rest) →
  ∃ text,
    l = "v"%char :: text ++ rest
    ∧ ("v"%char ∉ text)
    ∧ ∀ rest', match_version ("v"%char :: text ++ rest') = Some (found, rest').
Proof.
  destruct found as [[major minor] patch]. intros Hmatch.
  apply match_version_spec in Hmatch
    as (ws1 & ws2 & -> & Hws1 & Hws2 & [? Hmajor] & [? Hminor] & [? Hpatch]).
  exists (list_ascii_of_string "ersion" ++ ws1 ++ "="%char :: ws2
          ++ quote :: major ++ "."%char :: minor ++ "."%char :: patch
          ++ [quote]).
  split; [|split].
  - unfold version_line.
    by repeat (progress (rewrite <- ?app_assoc; cbn [app])).
  - assert (∀ ws, spaces ws → "v"%char ∉ ws) as Hspace.
    { intros ws Hws Hin.
      by apply (proj1 (Forall_forall _ _) Hws) in Hin. }
    assert (∀ ds, Forall (λ c, is_digit c = true) ds → "v"%char ∉ ds)
      as Hdigit.
    { intros ds Hds Hin.
      by apply (proj1 (Forall_forall _ _) Hds) in Hin. }
    intros Hin.
    repeat first [ rewrite elem_of_app in Hin | rewrite elem_of_cons in Hin ].
    repeat match goal with
      | H : _ ∨ _ |- _ => destruct H as [H|H]
      end;
      first [ discriminate
            | match goal with
              | Hs : spaces ?ws, Hi : _ ∈ ?ws |- _ => exact (Hspace ws Hs Hi)
              | Hd : Forall _ ?ds, Hi : _ ∈ ?ds |- _ => exact (Hdigit ds Hd Hi)
              end
            | by apply elem_of_nil in Hin
            | revert Hin; by_evaluation ].
  - intros rest'. apply match_version_spec. exists ws1, ws2.
    split; [|done]. unfold version_line.
    by repeat (progress (rewrite <- ?app_assoc; cbn [app])).
Qed.

Lemma search_eq l :
  search l = match match_version l with
             | Some found => Some found
             | None => match l with
                       | [] => None
                       | _ :: l' => search l'
                       end
             end.
Proof. by destruct l. Qed.

(** Putting another version line in place of one, further to the right,
    makes no match to the left of it: a match would have to reach the "v" of
    the line, and it holds no "v" but its first character. *)
Lemma no_match_before q tail tail' :
  q ≠ [] →
  match_version (q ++ "v"%char :: tail) = None →
  match_version (q ++ "v"%char :: tail') = None.
Proof.
  intros Hq Hnone.
  destruct (match_version (q ++ "v"%char :: tail')) as [[found rest]|] eqn:Hm;
    [exfalso|done].
  apply match_version_text in Hm as (text & Heq & Hv & Hany).
  destruct q as [|c q]; [done|]. injection Heq as -> Heq.
  apply app_eq_inv in Heq as [(k & -> & Hk)|(k & -> & Hk)].
  - cbn [app] in Hnone. rewrite <- app_assoc in Hnone.
    by rewrite (Hany (k ++ "v"%char :: tail)) in Hnone.
  - destruct k as [|c k].
    + rewrite app_nil_r in Hany. cbn [app] in Hnone.
      by rewrite (Hany ("v"%char :: tail)) in Hnone.
    + apply Hv. injection Hk as <- _. set_solver.
Qed.

Lemma match_version_shorter l found rest :
  match_version l = Some (found, rest) → (length rest < length l)%nat.
Proof.
  intros (text & -> & _)%match_version_text.
  cbn [length]. rewrite length_app. lia.
Qed.

Lemma match_version_v l found rest :
  match_version l = Some (found, rest) → ∃ tail, l = "v"%char :: tail.
Proof. intros (text & -> & _)%match_version_text. eauto. Qed.

(** Where there is a match, [re.sub] leaves what is before the first one and
    puts the replacement there. *)
Lemma sub_fuel_shape fuel repl l :
  (length l < fuel)%nat → is_Some (search l) →
  ∃ pre tail tail',
    l = pre ++ "v"%char :: tail
    ∧ sub_fuel fuel ("v"%char :: repl) l = pre ++ "v"%char :: tail'.
Proof.
  revert l. induction fuel as [|fuel IH]; intros l Hfuel Hsearch; [lia|].
  rewrite search_eq in Hsearch. cbn [sub_fuel].
  destruct (match_version l) as [[found rest]|] eqn:Hm.
  - apply match_version_v in Hm as [tail ->].
    by exists [], tail, (repl ++ sub_fuel fuel ("v"%char :: repl) rest).
  - destruct l as [|c l]; [by destruct Hsearch|].
    destruct (IH l) as (pre & tail & tail' & -> & ->);
      [simpl in Hfuel; lia | done |].
    by exists (c :: pre), tail, tail'.
Qed.

(** After [re.sub] the first match is the replacement, when this is a
    version line itself. *)
Lemma search_sub_fuel fuel repl found l :
  (∀ rest, match_version ("v"%char :: repl ++ rest) = Some (found, rest)) →
  (length l < fuel)%nat → is_Some (search l) →
  ∃ rest, search (sub_fuel fuel ("v"%char :: repl) l) = Some (found, rest).
Proof.
  intros Hrepl. revert l.
  induction fuel as [|fuel IH]; intros l Hfuel Hsearch; [lia|].
  pose proof Hsearch as Hsearch'. rewrite search_eq in Hsearch.
  cbn [sub_fuel].
  destruct (match_version l) as [[found' rest']|] eqn:Hm.
  - exists (sub_fuel fuel ("v"%char :: repl) rest').
    rewrite search_eq. cbn [app]. by rewrite Hrepl.
  - destruct l as [|c l]; [by destruct Hsearch|].
    assert (length l < fuel)%nat as Hfuel' by (simpl in Hfuel; lia).
    destruct (IH l Hfuel' Hsearch) as [rest Hrest]. exists rest.
    rewrite search_eq.
    destruct (sub_fuel_shape fuel repl l Hfuel' Hsearch)
      as (pre & tail & tail' & Hl & Hsub).
    rewrite Hsub in *. rewrite Hl in Hm.
    pose proof (no_match_before (c :: pre) tail tail' ltac:(done) Hm) as Hno.
    cbn [app] in Hno. by rewrite Hno.
Qed.

Lemma list_ascii_of_string_app s1 s2 :
  list_ascii_of_string (s1 +:+ s2)
  = list_ascii_of_string s1 ++ list_ascii_of_string s2.
Proof. induction s1; simpl; by f_equal. Qed.

Lemma uint_digits u :
  Forall (λ c, is_digit c = true)
    (list_ascii_of_string (NilEmpty.string_of_uint u)).
Proof. induction u; simpl; by constructor. Qed.

Lemma str_int_digits z :
  0 ≤ z → digits_only (list_ascii_of_string (str_int z)).
Proof.
  unfold str_int, digits_only. destruct z as [|p|p]; [|intros _|lia].
  - intros _. split; [done|]. by repeat constructor.
  - cbn [Z.to_int NilZero.string_of_int].
    pose proof (Unsigned.to_uint_nonnil p) as Hp.
    assert (NilZero.string_of_uint (Pos.to_uint p)
            = NilEmpty.string_of_uint (Pos.to_uint p)) as ->.
    { by destruct (Pos.to_uint p). }
    split; [by destruct (Pos.to_uint p) | apply uint_digits].
Qed.

(** The text that [update_pyproject] writes in place of a version line is a
    version line, whose groups are the decimal texts of the new version. *)
Lemma replacement_matches major minor patch rest :
  0 ≤ major → 0 ≤ minor → 0 ≤ patch →
  match_version
    ("v"%char
     :: (list_ascii_of_string "ersion = " ++ quote
         :: list_ascii_of_string (version_str (major, minor, patch))
         ++ [quote]) ++ rest)
  = Some (list_ascii_of_string (str_int major),
          list_ascii_of_string (str_int minor),
          list_ascii_of_string (str_int patch), rest).
Proof.
  intros Hmajor%str_int_digits Hminor%str_int_digits Hpatch%str_int_digits.
  apply match_version_spec. exists [" "%char], [" "%char].
  split; [|split; [|split]];
    [ | apply Forall_cons_2; [done | apply Forall_nil_2]
      | apply Forall_cons_2; [done | apply Forall_nil_2]
      | done ].
  unfold version_str, version_line.
  rewrite !list_ascii_of_string_app.
  by repeat (progress (rewrite <- ?app_assoc; cbn [app list_ascii_of_string])).
Qed.

(** The text of a version is made when its parts can be printed, and only
    then. *)
Lemma join_version_printable version :
  printable_version version →
  join_version version = Ret (version_str version).
Proof.
  destruct version as [[major minor] patch].
  intros (Hmajor%has_text_spec & Hminor%has_text_spec & Hpatch%has_text_spec).
  unfold join_version, str. by rewrite Hmajor, Hminor, Hpatch.
Qed.

Lemma join_version_raises version :
  ¬ printable_version version → join_version version = Raise ValueError.
Proof.
  destruct version as [[major minor] patch]. intros Hnot.
  unfold join_version, str.
  destruct (has_text major) eqn:Hmajor; [|done].
  destruct (has_text minor) eqn:Hminor; [|done].
  destruct (has_text patch) eqn:Hpatch; [|done].
  destruct Hnot. unfold printable_version. by rewrite <- !has_text_spec.
Qed.

(** X17: writing a version and reading it back gives that version: when
    [get_current_version] finds a version in the file, then
    [update_pyproject] puts a new version there, with parts that are not
    negative and of 4300 digits at most, and returns its dotted text; and
    in the text so written [get_current_version] finds the new version. *)
Theorem version_round_trip content old_version new_version :
  readable new_version →
  get_current_version content = Ret old_version →
  ∃ content',
    update_pyproject new_version content
    = Ret (content', version_str new_version)
    ∧ get_current_version content' = Ret new_version.
Proof.
  destruct new_version as [[major minor] patch].
  intros [(Hmajor & Hminor & Hpatch) (Hmajor' & Hminor' & Hpatch')] Hold.
  assert (is_Some (search (list_ascii_of_string content))) as Hsearch.
  { unfold get_current_version in Hold.
    by destruct (search (list_ascii_of_string content)). }
  unfold update_pyproject. rewrite join_version_printable by done.
  cbn [bind]. eexists. split; [reflexivity|].
  unfold get_current_version.
  rewrite list_ascii_of_string_of_list_ascii. unfold sub.
  destruct (search_sub_fuel (S (length (list_ascii_of_string content)))
              (list_ascii_of_string "ersion = " ++ quote
               :: list_ascii_of_string (version_str (major, minor, patch))
               ++ [quote])
              (list_ascii_of_string (str_int major),
               list_ascii_of_string (str_int minor),
               list_ascii_of_string (str_int patch))
              (list_ascii_of_string content))
    as [rest Hrest]; [|lia|done|].
  { intros rest. by apply replacement_matches. }
  change (list_ascii_of_string "version = ")
    with ("v"%char :: list_ascii_of_string "ersion = ").
  cbn [app]. rewrite Hrest.
  rewrite !string_of_list_ascii_of_string.
  by rewrite !int_of_str_int.
Qed.

Lemma version_round_trip_witness :
  ∃ content',
    update_pyproject (2, 0, 10)
      ("name = x" +:+ String "010" ("version=" +:+ String quote "1.9.3"
                                     +:+ String quote ""))
    = Ret (content', version_str (2, 0, 10))
    ∧ get_current_version content' = Ret (2, 0, 10).
Proof.
  apply (version_round_trip _ (1, 9, 3) (2, 0, 10)).
  - split; [lia|]. vm_compute. repeat split; by_evaluation.
  - vm_compute. reflexivity.
Defined.

Example update_pyproject_runs :
  update_pyproject (2, 0, 10)
    ("name = x" +:+ String "010" ("version  =" +:+ String quote "1.9.3"
                                   +:+ String quote ""))
  = Ret ("name = x" +:+ String "010" ("version = " +:+ String quote "2.0.10"
                                       +:+ String quote ""),
         "2.0.10").
Proof. vm_compute. reflexivity. Qed.

(** The fuel of [sub] is enough: more of it changes nothing. *)
Lemma sub_fuel_enough fuel repl l :
  (length l < fuel)%nat → sub_fuel fuel repl l = sub repl l.
Proof.
  unfold sub.
  assert (∀ fuel1 fuel2 l, (length l < fuel1)%nat → (length l < fuel2)%nat →
            sub_fuel fuel1 repl l = sub_fuel fuel2 repl l) as Hsame.
  { clear fuel l. induction fuel1 as [|fuel1 IH]; intros fuel2 l H1 H2;
      [lia|].
    destruct fuel2 as [|fuel2]; [lia|]. cbn [sub_fuel].
    destruct (match_version l) as [[found rest]|] eqn:Hm.
    - apply match_version_shorter in Hm. f_equal. apply IH; lia.
    - destruct l as [|c l]; [done|]. simpl in *. f_equal. apply IH; lia. }
  intros Hfuel. apply Hsame; lia.
Qed.

Lemma search_None l :
  search l = None ↔ ∀ pre l', l = pre ++ l' → match_version l' = None.
Proof.
  induction l as [|c l IH]; rewrite search_eq.
  - split.
    + intros _ pre l' Hl. symmetry in Hl.
      by apply app_eq_nil in Hl as [_ ->].
    + intros Hnone. by rewrite (Hnone [] []).
  - split.
    + destruct (match_version (c :: l)) eqn:Hm; [done|].
      intros Hrest [|c' pre] l' Hl.
      * simpl in Hl. by subst l'.
      * injection Hl as _ Hl. by apply (proj1 IH Hrest pre).
    + intros Hnone. rewrite (Hnone [] (c :: l)) by done.
      apply IH. intros pre l' ->. by apply (Hnone (c :: pre)).
Qed.

Lemma sub_fuel_no_match fuel repl l :
  search l = None → sub_fuel fuel repl l = l.
Proof.
  revert l. induction fuel as [|fuel IH]; intros l Hnone; [done|].
  rewrite search_eq in Hnone. cbn [sub_fuel].
  destruct (match_version l); [done|].
  destruct l as [|c l]; [done|]. f_equal. by apply IH.
Qed.

(** X18: a file with no version line in it (no place where "version",
    whitespace, "=", whitespace and three dotted groups of digits between
    double quotes follow each other): [get_current_version] raises
    ValueError, and [update_pyproject], given a version whose parts can be
    printed, writes the text back as it was, without a word, and returns the
    dotted text of the version.  Given a version with a part of more than
    4300 digits it raises ValueError before it writes. *)
Theorem no_version_line content new_version :
  (∀ pre rest ws1 ws2 major minor patch,
     spaces ws1 → spaces ws2 →
     digits_only major → digits_only minor → digits_only patch →
     list_ascii_of_string content
     ≠ pre ++ version_line ws1 ws2 major minor patch ++ rest) →
  get_current_version content = Raise ValueError
  ∧ (printable_version new_version →
     update_pyproject new_version content
     = Ret (content, version_str new_version))
  ∧ (¬ printable_version new_version →
     update_pyproject new_version content = Raise ValueError).
Proof.
  intros Hnone.
  assert (search (list_ascii_of_string content) = None) as Hsearch.
  { apply search_None. intros pre l' Hl.
    destruct (match_version l') as [[[[major minor] patch] rest]|] eqn:Hm;
      [exfalso|done].
    apply match_version_spec in Hm
      as (ws1 & ws2 & -> & H1 & H2 & H3 & H4 & H5).
    exact (Hnone pre rest ws1 ws2 major minor patch H1 H2 H3 H4 H5 Hl). }
  split; [|split].
  - unfold get_current_version. by rewrite Hsearch.
  - intros Hprintable. unfold update_pyproject, sub.
    rewrite join_version_printable by done. cbn [bind].
    rewrite sub_fuel_no_match by done.
    by rewrite string_of_list_ascii_of_string.
  - intros Hnot. unfold update_pyproject.
    by rewrite join_version_raises.
Qed.

Example no_version_line_quotes :
  get_current_version "version = '1.2.3'" = Raise ValueError
  ∧ update_pyproject (1, 2, 4) "version = '1.2.3'"
    = Ret ("version = '1.2.3'", "1.2.4")
  ∧ update_pyproject (1, huge_int, 4) "version = '1.2.3'" = Raise ValueError.
Proof. vm_compute. repeat split; reflexivity. Qed.

(** The whitespace of the pattern is that of [str.isspace]: a no-break
    space before the "=" is part of a version line. *)
Example version_line_no_break_space :
  get_current_version
    ("version" +:+ String "160" ("= " +:+ String quote "1.2.3"
                                  +:+ String quote ""))
  = Ret (1, 2, 3).
Proof. vm_compute. reflexivity. Qed.

Lemma search_None_no_line l :
  search l = None →
  ∀ pre rest ws1 ws2 major minor patch,
    spaces ws1 → spaces ws2 →
    digits_only major → digits_only minor → digits_only patch →
    l ≠ pre ++ version_line ws1 ws2 major minor patch ++ rest.
Proof.
  intros Hnone pre rest ws1 ws2 major minor patch H1 H2 H3 H4 H5 Hl.
  pose proof (proj1 (search_None l) Hnone pre _ Hl) as Hm.
  assert (match_version (version_line ws1 ws2 major minor patch ++ rest)
          = Some (major, minor, patch, rest)) as Hsome.
  { apply match_version_spec. by exists ws1, ws2. }
  congruence.
Qed.

Lemma no_version_line_witness :
  get_current_version "version: 1.2.3" = Raise ValueError
  ∧ (printable_version (1, 2, 4) →
     update_pyproject (1, 2, 4) "version: 1.2.3"
     = Ret ("version: 1.2.3", version_str (1, 2, 4)))
  ∧ (¬ printable_version (1, 2, 4) →
     update_pyproject (1, 2, 4) "version: 1.2.3" = Raise ValueError).
Proof.
  apply (no_version_line "version: 1.2.3" (1, 2, 4)).
  apply search_None_no_line. vm_compute. reflexivity.
Defined.

(** ** What a valid record is *)

Lemma contains_true s x :
  contains s x = Ret true → ∃ x', x = VStr x' ∧ x' ∈ s.
Proof.
  destruct x; simpl; intros [= Hx]. eexists. split; [done|].
  by apply bool_decide_eq_true in Hx.
Qed.

(** A valid record passed the checks made before the loop, and the loop left
    no error. *)
Lemma valid_reaches device_data new_device given_type :
  validate_device_data device_data new_device given_type = Ret (true, []) →
  ∃ device_type,
    reaches_fields device_data new_device given_type device_type
    ∧ for_each (keys device_data)
        (field_body device_data new_device (VStr device_type)) []
      = Ret [].
Proof.
  assert (∀ v, validate_fields device_data new_device v = Ret (true, []) →
            ∃ device_type, v = VStr device_type
              ∧ device_type ∈ DEVICE_TYPES
              ∧ for_each (keys device_data)
                  (field_body device_data new_device v) [] = Ret [])
    as Hfields.
  { intros v. unfold validate_fields.
    destruct (contains DEVICE_TYPES v) as [[]|] eqn:Hknown; cbn [bind negb];
      [|by intros (error & _ & [=])%bind_Ret|done].
    apply contains_true in Hknown as (device_type & -> & Hknown).
    intros (errors & Hloop & Hend)%bind_Ret.
    assert (errors = []) as -> by (destruct errors; by simplify_eq).
    by exists device_type. }
  unfold validate_device_data. destruct new_device.
  - case_bool_decide as Hkeys; [done|].
    destruct (getitem device_data "type") as [v|] eqn:Htype; cbn [bind];
      [|done].
    intros (device_type & -> & Hknown & Hloop)%Hfields.
    by exists device_type.
  - repeat case_bool_decide; cbn [app]; try done.
    intros (device_type & [= <-] & Hknown & Hloop)%Hfields.
    by exists given_type.
Qed.

Lemma parameters_field_quiet device_data new_device device_type parameters :
  device_type ∈ DEVICE_TYPES →
  getitem device_data "parameters" = Ret parameters →
  parameters_field device_data new_device (VStr device_type) [] = Ret [] →
  ∃ p, parameters = VDict p
       ∧ key_set p ∖ allowed_parameters device_type = ∅
       ∧ for_each p (item_rule device_type new_device) [] = Ret [].
Proof.
  intros Hknown Hget. unfold parameters_field.
  rewrite contains_known, Hget by done. cbn [bind].
  destruct (verify_other_returns parameters "'parameters'" TDict NoRange)
    as [[success reason] Hv]; [done|].
  rewrite Hv. cbn [bind].
  pose proof (verify_type_and_range_reason _ _ _ _ _ _ Hv) as Hreason.
  destruct success; cbn [negb].
  - destruct parameters as [| | | | | |p]; try done.
    cbn [eq_str]. unfold allowed_parameters, item_rule.
    destruct (known_device_types _ Hknown) as [->|[->|[->|[->| ->]]]];
      eval_string_tests; cbv iota;
      (case_bool_decide as Hleft; [done|]);
      intros Hloop; by exists p.
  - destruct Hreason as [m ->]. done.
Qed.

(** X19: what a valid record is sure to be.  When [validate_device_data]
    returns (True, []), the record passed the shape check of its mode, its
    device type is a known one, its ['status'], if it has one, is a string
    among the status values of the type, and its ['parameters'], if it has
    them, is a dict whose keys are all allowed for the type. *)
Theorem valid_record_conforms device_data new_device given_type :
  validate_device_data device_data new_device given_type = Ret (true, []) →
  ∃ device_type,
    reaches_fields device_data new_device given_type device_type
    ∧ (∀ status, getitem device_data "status" = Ret status →
         ∃ s, status = VStr s ∧ s ∈ status_values device_type)
    ∧ (∀ parameters, getitem device_data "parameters" = Ret parameters →
         ∃ p, parameters = VDict p
              ∧ ∀ key, key ∈ keys p → key ∈ allowed_parameters device_type).
Proof.
  intros (device_type & Hreach & Hloop)%valid_reaches.
  exists device_type. split; [done|].
  destruct Hreach as [Hknown _].
  pose proof (λ field,
                for_each_no_error _ _ field
                  (adds_any_field_body device_data new_device
                     (VStr device_type)) Hloop) as Hquiet.
  split.
  - intros status Hget.
    assert ((∃ s, status = VStr s ∧ s ∈ status_values device_type)
            ∨ ¬ (∃ s, status = VStr s ∧ s ∈ status_values device_type))
      as [|Hinvalid]; [|done|exfalso].
    { destruct status; try (right; by intros (? & ? & ?)).
      destruct (decide (s ∈ status_values device_type));
        [left; eauto | right; intros (? & [= <-] & ?); done]. }
    apply (proj2 (check_enumeration status "'status'" _)) in Hinvalid
      as [m Hm].
    pose proof (Hquiet "status" (getitem_Ret_in_keys _ _ _ Hget)) as Hq.
    revert Hq. unfold field_body. eval_string_tests. cbn [bind].
    rewrite (status_field_known _ _ status), Hm by done.
    cbn [bind]. done.
  - intros parameters Hget.
    pose proof (Hquiet "parameters" (getitem_Ret_in_keys _ _ _ Hget)) as Hq.
    revert Hq. unfold field_body. eval_string_tests. cbn [bind].
    intros (p & -> & Hleft & _)%(parameters_field_quiet _ _ _ parameters);
      [|done..].
    exists p. split; [done|]. intros key Hkey.
    destruct (decide (key ∈ allowed_parameters device_type)) as [|Hout];
      [done|exfalso].
    assert (key ∈ key_set p ∖ allowed_parameters device_type) as Hin.
    { apply elem_of_difference. split; [|done].
      by apply elem_of_list_to_set. }
    rewrite Hleft in Hin. by apply elem_of_empty in Hin.
Qed.

Lemma valid_record_conforms_witness :
  ∃ device_type,
    reaches_fields valid_door_lock_record false "door_lock" device_type
    ∧ (∀ status, getitem valid_door_lock_record "status" = Ret status →
         ∃ s, status = VStr s ∧ s ∈ status_values device_type)
    ∧ (∀ parameters,
         getitem valid_door_lock_record "parameters" = Ret parameters →
         ∃ p, parameters = VDict p
              ∧ ∀ key, key ∈ keys p → key ∈ allowed_parameters device_type).
Proof.
  apply (valid_record_conforms valid_door_lock_record false "door_lock").
  vm_compute. reflexivity.
Defined.

Lemma check_int_quiet value name low high :
  check value name TInt (Range low high) [] = Ret [] →
  ∃ z, int value = Ret z ∧ low ≤ z ≤ high.
Proof.
  unfold check.
  destruct (verify_type_and_range value name TInt (Range low high))
    as [[success reason]|e] eqn:Hv; cbn [bind]; [|done].
  pose proof (verify_type_and_range_reason _ _ _ _ _ _ Hv) as Hreason.
  destruct success; cbn [negb].
  - intros _. revert Hv. unfold verify_type_and_range.
    rewrite bool_decide_true by done.
    destruct (int value) as [z|[]] eqn:Hint; cbn [bind]; try done;
      [|by intros (error & _ & [=])%bind_Ret].
    destruct ((z >? high) || (z <? low)) eqn:Hin;
      [by intros (error & _ & [=])%bind_Ret|].
    intros _. apply orb_false_iff in Hin as [Hhigh Hlow].
    exists z. split; [done|]. lia.
  - destruct Hreason as [m ->]. done.
Qed.

(** For a key with bounds, the loop body is the check of an integer within
    them. *)
Lemma item_rule_bounds device_type new_device key value low high :
  int_bounds device_type key = Some (low, high) →
  ∃ name, item_rule device_type new_device (key, value)
          = check value name TInt (Range low high).
Proof.
  intros Hbounds. unfold int_bounds in Hbounds.
  repeat case_bool_decide; try done;
    match goal with H : _ ∧ _ |- _ => destruct H as [-> ->] end;
    injection Hbounds as <- <-; eexists;
    unfold item_rule, door_lock_item, curtain_item, air_conditioner_item,
      water_heater_item, light_item;
    eval_string_tests; reflexivity.
Qed.

(** X20: in a valid record the integer parameters are within their bounds.
    When [validate_device_data] returns (True, []) for a record whose
    ['parameters'] is the dict [parameters], every item of it under a key
    that has a range for the device type (battery_level, position,
    temperature of an air conditioner, target_temperature, brightness) has a
    value that [int] turns into a number within that range. *)
Theorem valid_record_int_bounds device_data new_device given_type device_type
    parameters key value low high :
  validate_device_data device_data new_device given_type = Ret (true, []) →
  reaches_fields device_data new_device given_type device_type →
  getitem device_data "parameters" = Ret (VDict parameters) →
  (key, value) ∈ parameters →
  int_bounds device_type key = Some (low, high) →
  ∃ z, int value = Ret z ∧ low ≤ z ≤ high.
Proof.
  intros (device_type' & Hreach' & Hloop)%valid_reaches Hreach Hget Hitem.
  assert (device_type' = device_type) as ->.
  { destruct new_device; simpl in Hreach, Hreach'.
    - destruct Hreach as (_ & _ & H1), Hreach' as (_ & _ & H2). congruence.
    - destruct Hreach as (_ & _ & _ & H1), Hreach' as (_ & _ & _ & H2).
      congruence. }
  destruct Hreach as [Hknown _].
  pose proof (for_each_no_error _ _ "parameters"
                (adds_any_field_body device_data new_device
                   (VStr device_type)) Hloop
                (getitem_Ret_in_keys _ _ _ Hget)) as Hq.
  revert Hq. unfold field_body. eval_string_tests. cbn [bind].
  intros (p & [= <-] & _ & Hitems)%(parameters_field_quiet _ _ _
                                      (VDict parameters)); [|done..].
  assert (∀ item, adds (λ _, True) (item_rule device_type new_device item))
    as Hadds.
  { intros item. unfold item_rule.
    destruct (adds_any_items new_device item) as (? & ? & ? & ? & ?).
    by repeat case_bool_decide. }
  pose proof (for_each_no_error _ _ (key, value) Hadds Hitems Hitem) as Hq.
  intros Hbounds.
  destruct (item_rule_bounds _ new_device _ value _ _ Hbounds) as [name Hrule].
  rewrite Hrule in Hq. by apply check_int_quiet in Hq.
Qed.

Lemma valid_record_int_bounds_witness :
  ∃ z, int (VInt 50) = Ret z ∧ MIN_BATTERY ≤ z ≤ MAX_BATTERY.
Proof.
  apply (valid_record_int_bounds valid_door_lock_record false "door_lock"
           "door_lock" [("battery_level", VInt 50)] "battery_level").
  - vm_compute. reflexivity.
  - split; [by_evaluation|]. split; [by_evaluation|].
    split; [by_evaluation | reflexivity].
  - reflexivity.
  - apply list_elem_of_here.
  - reflexivity.
Defined.
